(** * Automated ChatGPT chat deletion: a model of [Delete.py]

    [Delete.py] drives a Firefox session through Selenium: it scans the
    sidebar for conversation links, deletes each conversation through the
    options menu and the confirmation dialog, and records the identifiers
    it has deleted in [deleted_chats.json].

    The browser, the clock and the disk are the program's environment.
    They are modelled by an oracle that answers every call the program
    makes, given the calls made so far; the program itself is a function
    on an explicit state in a small monad with early [return] and
    exceptions. *)

From Stdlib Require Import Ascii.
From stdpp Require Import gmap strings list pretty.

(** ** Python strings

    A Python [str] is modelled as a Rocq [string]; a character stands for
    the code point of the same number, so the model covers code points
    below 256 (conversation identifiers are URL path segments). *)

Module PyStr.

Definition dq : ascii := "034"%char.
Definition backslash : ascii := "\"%char.

(** [needle in hay] *)
Fixpoint contains (needle hay : string) : bool :=
  String.prefix needle hay ||
  match hay with
  | EmptyString => false
  | String _ hay' => contains needle hay'
  end.

(** [s.split(sep)] for a separator of one character: never empty. *)
Fixpoint split (sep : ascii) (s : string) : list string :=
  match s with
  | EmptyString => [EmptyString]
  | String c s' =>
      if Ascii.eqb c sep then EmptyString :: split sep s'
      else match split sep s' with
           | piece :: pieces => String c piece :: pieces
           | [] => [String c EmptyString]
           end
  end.

(** [l[-1]] on a list that [split] returned. *)
Definition last_piece (l : list string) : string := List.last l EmptyString.

(** [bool(s)]: the empty string is falsy. *)
Definition truthy (s : string) : bool :=
  match s with EmptyString => false | String _ _ => true end.

(** [str(b)] *)
Definition of_bool (b : bool) : string := if b then "True" else "False".

End PyStr.

(** ** The persisted format: a JSON array of strings

    [json_dump] is [json.dump] with its defaults ([ensure_ascii], the
    separator [", "]) on a list of [str].  [json_load] reads the format
    the program writes: it answers the strings of a text that is a JSON
    array of strings, and [None] on any other text.  [loads] below is
    [json.loads] on any text; the two agree on the arrays of strings
    ([JsonFacts.json_load_loads]). *)

Module Json.
Import PyStr.

Definition hex_digit (n : N) : ascii :=
  match n with
  | 0 => "0" | 1 => "1" | 2 => "2" | 3 => "3" | 4 => "4" | 5 => "5"
  | 6 => "6" | 7 => "7" | 8 => "8" | 9 => "9" | 10 => "a" | 11 => "b"
  | 12 => "c" | 13 => "d" | 14 => "e" | _ => "f"
  end%N%char.

(** [ESCAPE_DCT] and the [\uXXXX] fallback of [py_encode_basestring_ascii]. *)
Definition escape_char (c : ascii) : string :=
  let n := N_of_ascii c in
  if Ascii.eqb c dq then String backslash (String dq "")
  else if Ascii.eqb c backslash then String backslash (String backslash "")
  else if Ascii.eqb c "010" then String backslash "n"
  else if Ascii.eqb c "013" then String backslash "r"
  else if Ascii.eqb c "009" then String backslash "t"
  else if Ascii.eqb c "008" then String backslash "b"
  else if Ascii.eqb c "012" then String backslash "f"
  else if (32 <=? n)%N && (n <=? 126)%N then String c ""
  else String backslash
         (String "u" (String "0" (String "0"
            (String (hex_digit (n / 16)) (String (hex_digit (n mod 16)) ""))))).

Fixpoint escape (s : string) : string :=
  match s with
  | EmptyString => ""
  | String c s' => escape_char c +:+ escape s'
  end.

Definition encode_str (s : string) : string :=
  String dq (escape s +:+ String dq "").

Fixpoint join_items (items : list string) : string :=
  match items with
  | [] => ""
  | [x] => x
  | x :: rest => x +:+ ", " +:+ join_items rest
  end.

Definition json_dump (ids : list string) : string :=
  "[" +:+ join_items (encode_str <$> ids) +:+ "]".

(** What [json_dump] writes after the first item. *)
Fixpoint more_items (ids : list string) : string :=
  match ids with
  | [] => ""
  | x :: rest => ", " +:+ encode_str x +:+ more_items rest
  end.

Definition is_ws (c : ascii) : bool :=
  Ascii.eqb c " " || Ascii.eqb c "009" || Ascii.eqb c "010" || Ascii.eqb c "013".

Fixpoint skip_ws (s : string) : string :=
  match s with
  | EmptyString => ""
  | String c s' => if is_ws c then skip_ws s' else s
  end.

Definition hex_val (c : ascii) : option N :=
  let n := N_of_ascii c in
  if (48 <=? n)%N && (n <=? 57)%N then Some (n - 48)%N
  else if (97 <=? n)%N && (n <=? 102)%N then Some (n - 87)%N
  else if (65 <=? n)%N && (n <=? 70)%N then Some (n - 55)%N
  else None.

(** The one-letter escapes of [BACKSLASH]. *)
Definition unescape (e : ascii) : option ascii :=
  if Ascii.eqb e dq then Some dq
  else if Ascii.eqb e backslash then Some backslash
  else if Ascii.eqb e "/" then Some "/"%char
  else if Ascii.eqb e "b" then Some "008"%char
  else if Ascii.eqb e "f" then Some "012"%char
  else if Ascii.eqb e "n" then Some "010"%char
  else if Ascii.eqb e "r" then Some "013"%char
  else if Ascii.eqb e "t" then Some "009"%char
  else None.

Definition push (c : ascii) (r : option (string * string)) :
    option (string * string) :=
  match r with
  | Some (s, rest) => Some (String c s, rest)
  | None => None
  end.

(** [scanstring] in strict mode, after the opening quote: the decoded
    string and the text after the closing quote. *)
Fixpoint parse_chars (s : string) : option (string * string) :=
  match s with
  | EmptyString => None
  | String c s1 =>
      if Ascii.eqb c dq then Some ("", s1)
      else if Ascii.eqb c backslash then
        match s1 with
        | EmptyString => None
        | String e s2 =>
            if Ascii.eqb e "u" then
              match s2 with
              | String h1 (String h2 (String h3 (String h4 s3))) =>
                  match hex_val h1, hex_val h2, hex_val h3, hex_val h4 with
                  | Some a, Some b, Some c', Some d =>
                      let code := (a * 4096 + b * 256 + c' * 16 + d)%N in
                      if (code <? 256)%N
                      then push (ascii_of_N code) (parse_chars s3)
                      else None
                  | _, _, _, _ => None
                  end
              | _ => None
              end
            else
              match unescape e with
              | Some ch => push ch (parse_chars s2)
              | None => None
              end
        end
      else if (N_of_ascii c <? 32)%N then None
      else push c (parse_chars s1)
  end.

(** [JSONArray] after a value: [,] and one more string, or [\]]. *)
Fixpoint parse_rest (fuel : nat) (s : string) : option (list string * string) :=
  match fuel with
  | O => None
  | S fuel' =>
      match skip_ws s with
      | String c s1 =>
          if Ascii.eqb c "]" then Some ([], s1)
          else if Ascii.eqb c "," then
            match skip_ws s1 with
            | String q s2 =>
                if Ascii.eqb q dq then
                  match parse_chars s2 with
                  | Some (x, s3) =>
                      match parse_rest fuel' s3 with
                      | Some (xs, s4) => Some (x :: xs, s4)
                      | None => None
                      end
                  | None => None
                  end
                else None
            | EmptyString => None
            end
          else None
      | EmptyString => None
      end
  end.

Definition parse_array (s : string) : option (list string * string) :=
  match skip_ws s with
  | String c s1 =>
      if Ascii.eqb c "[" then
        match skip_ws s1 with
        | String q s2 =>
            if Ascii.eqb q "]" then Some ([], s2)
            else if Ascii.eqb q dq then
              match parse_chars s2 with
              | Some (x, s3) =>
                  match parse_rest (String.length s3) s3 with
                  | Some (xs, s4) => Some (x :: xs, s4)
                  | None => None
                  end
              | None => None
              end
            else None
        | EmptyString => None
        end
      else None
  | EmptyString => None
  end.

(** [JSONDecoder.decode]: nothing but white space may follow the value. *)
Definition json_load (s : string) : option (list string) :=
  match parse_array s with
  | Some (ids, rest) =>
      match skip_ws rest with
      | EmptyString => Some ids
      | String _ _ => None
      end
  | None => None
  end.

(** *** Any JSON document

    [loads] is [json.loads] on any text, and [as_set] is [set(...)] on
    the value it returns. *)

(** A decoded [str]: its characters, [None] standing for a code point
    above 255. *)
Abbreviation Text := (list (option ascii)).

#[warnings="-register-all"]
Inductive Value :=
  | Null
  | Bool (b : bool)
  | Number
  | Str (s : Text)
  | Array (items : list Value)
  | Object (members : list (Text * Value)).

Definition put (c : option ascii) (r : option (Text * string)) :
    option (Text * string) :=
  match r with
  | Some (s, rest) => Some (c :: s, rest)
  | None => None
  end.

(** [scanstring] in strict mode, after the opening quote, with every
    [\uXXXX] escape. *)
Fixpoint scan_string (s : string) : option (Text * string) :=
  match s with
  | EmptyString => None
  | String c s1 =>
      if Ascii.eqb c dq then Some ([], s1)
      else if Ascii.eqb c backslash then
        match s1 with
        | EmptyString => None
        | String e s2 =>
            if Ascii.eqb e "u" then
              match s2 with
              | String h1 (String h2 (String h3 (String h4 s3))) =>
                  match hex_val h1, hex_val h2, hex_val h3, hex_val h4 with
                  | Some a, Some b, Some c', Some d =>
                      let code := (a * 4096 + b * 256 + c' * 16 + d)%N in
                      put (if (code <? 256)%N then Some (ascii_of_N code) else None)
                        (scan_string s3)
                  | _, _, _, _ => None
                  end
              | _ => None
              end
            else
              match unescape e with
              | Some ch => put (Some ch) (scan_string s2)
              | None => None
              end
        end
      else if (N_of_ascii c <? 32)%N then None
      else put (Some c) (scan_string s1)
  end.

Definition is_digit (c : ascii) : bool :=
  (48 <=? N_of_ascii c)%N && (N_of_ascii c <=? 57)%N.

Fixpoint skip_digits (s : string) : string :=
  match s with
  | EmptyString => ""
  | String c s' => if is_digit c then skip_digits s' else s
  end.

(** The text after [prefix], when [s] starts with it. *)
Fixpoint strip (prefix s : string) : option string :=
  match prefix, s with
  | EmptyString, _ => Some s
  | String a p, String b s' => if Ascii.eqb a b then strip p s' else None
  | String _ _, EmptyString => None
  end.

(** [NUMBER_RE]: an optional minus sign, then [0] or a digit from 1 to
    9 followed by digits, then optionally a point and one digit or more,
    then optionally [e] or [E], an optional sign and one digit or more;
    the text after the longest match. *)
Definition scan_number (s : string) : option string :=
  let unsigned := match s with
                  | String c s' => if Ascii.eqb c "-" then s' else s
                  | EmptyString => s
                  end in
  match unsigned with
  | String c s1 =>
      if is_digit c then
        let after_int := if Ascii.eqb c "0" then s1 else skip_digits s1 in
        let after_frac :=
          match after_int with
          | String p (String d s2) =>
              if Ascii.eqb p "." && is_digit d then skip_digits s2 else after_int
          | _ => after_int
          end in
        match after_frac with
        | String e s2 =>
            if Ascii.eqb e "e" || Ascii.eqb e "E" then
              let digits := match s2 with
                            | String g s3 =>
                                if Ascii.eqb g "-" || Ascii.eqb g "+" then s3 else s2
                            | EmptyString => s2
                            end in
              match digits with
              | String d s3 => if is_digit d then Some (skip_digits s3)
                               else Some after_frac
              | EmptyString => Some after_frac
              end
            else Some after_frac
        | EmptyString => Some after_frac
        end
      else None
  | EmptyString => None
  end.

(** The values of [scan_once] that are neither strings nor containers. *)
Definition scan_scalar (s : string) : option (Value * string) :=
  match strip "null" s with
  | Some rest => Some (Null, rest)
  | None =>
  match strip "true" s with
  | Some rest => Some (Bool true, rest)
  | None =>
  match strip "false" s with
  | Some rest => Some (Bool false, rest)
  | None =>
  match scan_number s with
  | Some rest => Some (Number, rest)
  | None =>
  match strip "NaN" s with
  | Some rest => Some (Number, rest)
  | None =>
  match strip "Infinity" s with
  | Some rest => Some (Number, rest)
  | None =>
  match strip "-Infinity" s with
  | Some rest => Some (Number, rest)
  | None => None
  end end end end end end end.

(** [scan_once], [JSONArray] and [JSONObject]; [s] starts at the value,
    at the first item, at the first key. *)
Fixpoint parse_value (fuel : nat) (s : string) {struct fuel} : option (Value * string) :=
  match fuel with
  | O => None
  | S fuel' =>
      match s with
      | EmptyString => None
      | String c s1 =>
          if Ascii.eqb c dq then
            match scan_string s1 with
            | Some (x, rest) => Some (Str x, rest)
            | None => None
            end
          else if Ascii.eqb c "[" then
            match skip_ws s1 with
            | String q s2 =>
                if Ascii.eqb q "]" then Some (Array [], s2)
                else match parse_items fuel' (String q s2) with
                     | Some (items, rest) => Some (Array items, rest)
                     | None => None
                     end
            | EmptyString => None
            end
          else if Ascii.eqb c "{" then
            match skip_ws s1 with
            | String q s2 =>
                if Ascii.eqb q "}" then Some (Object [], s2)
                else match parse_members fuel' (String q s2) with
                     | Some (members, rest) => Some (Object members, rest)
                     | None => None
                     end
            | EmptyString => None
            end
          else scan_scalar s
      end
  end
with parse_items (fuel : nat) (s : string) {struct fuel} : option (list Value * string) :=
  match fuel with
  | O => None
  | S fuel' =>
      match parse_value fuel' s with
      | Some (v, s1) =>
          match skip_ws s1 with
          | String c s2 =>
              if Ascii.eqb c "]" then Some ([v], s2)
              else if Ascii.eqb c "," then
                match parse_items fuel' (skip_ws s2) with
                | Some (vs, s3) => Some (v :: vs, s3)
                | None => None
                end
              else None
          | EmptyString => None
          end
      | None => None
      end
  end
with parse_members (fuel : nat) (s : string) {struct fuel} :
    option (list (Text * Value) * string) :=
  match fuel with
  | O => None
  | S fuel' =>
      match s with
      | String q s1 =>
          if Ascii.eqb q dq then
            match scan_string s1 with
            | Some (key, s2) =>
                match skip_ws s2 with
                | String c s3 =>
                    if Ascii.eqb c ":" then
                      match parse_value fuel' (skip_ws s3) with
                      | Some (v, s4) =>
                          match skip_ws s4 with
                          | String d s5 =>
                              if Ascii.eqb d "}" then Some ([(key, v)], s5)
                              else if Ascii.eqb d "," then
                                match parse_members fuel' (skip_ws s5) with
                                | Some (ms, s6) => Some ((key, v) :: ms, s6)
                                | None => None
                                end
                              else None
                          | EmptyString => None
                          end
                      | None => None
                      end
                    else None
                | EmptyString => None
                end
            | None => None
            end
          else None
      | EmptyString => None
      end
  end.

(** What [parse_items] does after a value: [\]], or a comma and the
    items that follow. *)
Definition after_value (fuel : nat) (v : Value) (s : string) :
    option (list Value * string) :=
  match skip_ws s with
  | String c s2 =>
      if Ascii.eqb c "]" then Some ([v], s2)
      else if Ascii.eqb c "," then
        match parse_items fuel (skip_ws s2) with
        | Some (vs, s3) => Some (v :: vs, s3)
        | None => None
        end
      else None
  | EmptyString => None
  end.

(** [json.loads]: [None] where it raises [JSONDecodeError].  The fuel is
    enough for every text: each call but one in two reads a character. *)
Definition loads (s : string) : option Value :=
  let s0 := skip_ws s in
  match parse_value (2 * String.length s0 + 1) s0 with
  | Some (v, rest) =>
      match skip_ws rest with
      | EmptyString => Some v
      | String _ _ => None
      end
  | None => None
  end.

(** [set(v)]: the members, or [TypeError], or the members that are
    strings of the model where some are not. *)
Inductive Loaded :=
  | Members (ids : list string)
  | NotASet
  | Foreign (ids : list string).

(** A string of the model as a decoded [str], and back. *)
Definition text_of (x : string) : Text := Some <$> String.list_ascii_of_string x.

Definition narrow (s : Text) : option string :=
  String.string_of_list_ascii <$> mapM id s.

Definition hashable (v : Value) : bool :=
  match v with
  | Array _ | Object _ => false
  | _ => true
  end.

Definition as_id (v : Value) : option string :=
  match v with
  | Str s => narrow s
  | _ => None
  end.

Definition gather (candidates : list (option string)) : Loaded :=
  if forallb (λ c, bool_decide (is_Some c)) candidates
  then Members (omap id candidates)
  else Foreign (omap id candidates).

Definition as_set (v : Value) : Loaded :=
  match v with
  | Null | Bool _ | Number => NotASet
  | Str s => gather (fmap (M:=option) (λ a, String a "") <$> s)
  | Object members => gather ((λ m, narrow m.1) <$> members)
  | Array items =>
      if forallb hashable items then gather (as_id <$> items) else NotASet
  end.

End Json.


(** ** Exceptions

    [Exn] ranges over the subclasses of [Exception]: the four Selenium
    classes the program names, and every other one ([WebDriverException],
    [OSError], [JSONDecodeError], ...).  [KeyboardInterrupt] and
    [SystemExit] are not faults of the environment and are outside the
    model.  [exn_str e] is [str(e)]. *)

Inductive ExnClass :=
  | TimeoutException
  | NoSuchElementException
  | ElementClickInterceptedException
  | StaleElementReferenceException
  | OtherException.

Global Instance ExnClass_eq_dec : EqDecision ExnClass.
Proof. solve_decision. Defined.

Record Exn := { exn_class : ExnClass; exn_str : string }.

(** ** The calls the program makes on its environment *)

Definition WebElement := nat.

Inductive By := CSS_SELECTOR | XPATH | TAG_NAME.

Inductive Condition :=
  | presence_of_element_located
  | visibility_of_element_located.

(** The object a search starts from: the driver or an element. *)
Inductive Root := Driver | Within (e : WebElement).

(** The steps queued on an [ActionChains] object. *)
Inductive Action :=
  | move_to_element (e : WebElement)
  | pause_half_second
  | click (e : WebElement).

Inductive Event :=
  | Firefox (options : list string)         (* webdriver.Firefox(options=...) *)
  | Get (url : string)                      (* driver.get(url) *)
  | Quit                                    (* driver.quit() *)
  | Refresh                                 (* driver.refresh() *)
  | ExecuteScript (script : string)         (* driver.execute_script(script) *)
  | WaitUntil (root : Root) (timeout : nat) (c : Condition) (by_ : By) (sel : string)
                                            (* WebDriverWait(root, timeout).until(c((by, sel))) *)
  | FindElement (root : Root) (by_ : By) (sel : string)
  | FindElements (by_ : By) (sel : string)
  | GetAttribute (e : WebElement) (name : string)
  | IsDisplayed (e : WebElement)
  | IsEnabled (e : WebElement)
  | Click (e : WebElement)                  (* e.click() *)
  | Perform (actions : list Action)         (* ActionChains(...)....perform() *)
  | Sleep (seconds : nat)                   (* time.sleep(seconds) *)
  | Open (path : string) (mode : string).   (* open(path, mode) *)

Global Instance By_eq_dec : EqDecision By.
Proof. solve_decision. Defined.
Global Instance Condition_eq_dec : EqDecision Condition.
Proof. solve_decision. Defined.
Global Instance Root_eq_dec : EqDecision Root.
Proof. solve_decision. Defined.
Global Instance Action_eq_dec : EqDecision Action.
Proof. solve_decision. Defined.
Global Instance Event_eq_dec : EqDecision Event.
Proof. solve_decision. Defined.

(** The environment: at every call, given the calls made before it
    (newest first), whether the call raises and, if it does not, the
    value it returns. *)
Record Env := {
  env_profile : option string;                        (* get_firefox_profile() *)
  env_fault : list Event → Event → option Exn;
  env_element : list Event → Event → WebElement;
  env_elements : list Event → Event → list WebElement;
  env_attribute : list Event → Event → option string;
  env_flag : list Event → Event → bool
}.

(** ** Configuration *)

Definition DELETED_LOG_FILE : string := "deleted_chats.json".
Definition WAIT_TIMEOUT : nat := 10.
Definition BASE_URL : string := "https://chat.openai.com/".
Definition DELETE_MENU_COLOR : string := "rgb(169, 53, 51)".
Definition DELETE_CONFIRM_COLOR : string := "rgb(239, 68, 68)".

Definition quoted (s : string) : string :=
  String PyStr.dq (s +:+ String PyStr.dq "").

(** [because another element <html class="dark">] *)
Definition DARK_MODE_MARKER : string :=
  "because another element <html class=" +:+ quoted "dark" +:+ ">".

(** [a[href^="/c/"]] *)
Definition CHAT_LINK : string := "a[href^=" +:+ quoted "/c/" +:+ "]".

(** [div[data-testid="delete-chat-menu-item"]] *)
Definition DELETE_MENU_ITEM : string :=
  "div[data-testid=" +:+ quoted "delete-chat-menu-item" +:+ "]".

(** [button[data-testid$="-options"][aria-haspopup="menu"]] *)
Definition OPTIONS_BUTTON : string :=
  "button[data-testid$=" +:+ quoted "-options" +:+ "][aria-haspopup="
    +:+ quoted "menu" +:+ "]".

Definition CLEANUP_SCRIPT : string :=
  "const overlays = document.querySelectorAll('div[class*=" +:+ quoted "z-50"
    +:+ "]'); overlays.forEach(o => o.remove());".

Definition dialog_selectors : list string :=
  [ "div[role=" +:+ quoted "dialog" +:+ "]";
    "div.relative.flex.flex-col";
    "div[data-state=" +:+ quoted "open" +:+ "]" ].

Definition button_selectors : list string :=
  [ "/html/body/div[5]/div/div/div/div[2]/div[2]/button[1]";
    "//button[contains(text(), " +:+ quoted "Delete" +:+ ")]";
    "//div[@role=" +:+ quoted "dialog" +:+ "]//button[contains(@class, "
      +:+ quoted "text-red" +:+ ")]";
    "//div[@role=" +:+ quoted "dialog" +:+ "]//button[last()]" ].

(** [a[href*="{chat id}"]] *)
Definition chat_link_of (id : string) : string :=
  "a[href*=" +:+ quoted id +:+ "]".

(** ** The state of a run *)

Inductive Level := INFO | WARNING | ERROR.

Global Instance Level_eq_dec : EqDecision Level.
Proof. solve_decision. Defined.

Record State := {
  deleted_chat_ids : gset string;          (* self.deleted_chat_ids *)
  current_error_chat_id : option string;   (* self.current_error_chat_id *)
  dark_mode_error_count : nat;             (* self.dark_mode_error_count *)
  options : list string;                   (* the arguments of self.options *)
  disk : option string;                    (* deleted_chats.json, if it exists *)
  trace : list Event;                      (* the calls made, newest first *)
  log : list (Level * string)              (* the records logged, newest first *)
}.

Definition set_deleted_chat_ids (ids : gset string) (st : State) : State :=
  {| deleted_chat_ids := ids;
     current_error_chat_id := current_error_chat_id st;
     dark_mode_error_count := dark_mode_error_count st;
     options := options st; disk := disk st; trace := trace st; log := log st |}.

Definition set_current_error_chat_id (id : option string) (st : State) : State :=
  {| deleted_chat_ids := deleted_chat_ids st;
     current_error_chat_id := id;
     dark_mode_error_count := dark_mode_error_count st;
     options := options st; disk := disk st; trace := trace st; log := log st |}.

Definition set_dark_mode_error_count (n : nat) (st : State) : State :=
  {| deleted_chat_ids := deleted_chat_ids st;
     current_error_chat_id := current_error_chat_id st;
     dark_mode_error_count := n;
     options := options st; disk := disk st; trace := trace st; log := log st |}.

Definition set_disk (d : option string) (st : State) : State :=
  {| deleted_chat_ids := deleted_chat_ids st;
     current_error_chat_id := current_error_chat_id st;
     dark_mode_error_count := dark_mode_error_count st;
     options := options st; disk := d; trace := trace st; log := log st |}.

Definition record_event (ev : Event) (st : State) : State :=
  {| deleted_chat_ids := deleted_chat_ids st;
     current_error_chat_id := current_error_chat_id st;
     dark_mode_error_count := dark_mode_error_count st;
     options := options st; disk := disk st;
     trace := ev :: trace st; log := log st |}.

Definition record_log (lvl : Level) (msg : string) (st : State) : State :=
  {| deleted_chat_ids := deleted_chat_ids st;
     current_error_chat_id := current_error_chat_id st;
     dark_mode_error_count := dark_mode_error_count st;
     options := options st; disk := disk st;
     trace := trace st; log := (lvl, msg) :: log st |}.

(** ** Statements

    A statement of a function whose [return] values have type [R] runs
    from a state to a state and either falls through with a value,
    executes [return], or raises. *)

Inductive Outcome (R A : Type) :=
  | Normal (a : A)
  | Return (r : R)
  | Raise (e : Exn).
Global Arguments Normal {R A} a.
Global Arguments Return {R A} r.
Global Arguments Raise {R A} e.

Definition M (R A : Type) : Type := State → Outcome R A * State.

Global Instance M_ret {R} : MRet (M R) := λ A a st, (Normal a, st).

Global Instance M_bind {R} : MBind (M R) := λ A B f m st,
  match m st with
  | (Normal a, st') => f a st'
  | (Return r, st') => (Return r, st')
  | (Raise e, st') => (Raise e, st')
  end.

(** [return r] *)
Definition return_ {R A} (r : R) : M R A := λ st, (Return r, st).

(** [try: body  except Exception as e: handler e] *)
Definition try_except {R A} (body : M R A) (handler : Exn → M R A) : M R A :=
  λ st, match body st with
        | (Raise e, st') => handler e st'
        | other => other
        end.

(** [try: body  except cls as e: handler e] *)
Definition try_except_class {R A} (cls : ExnClass)
    (body : M R A) (handler : Exn → M R A) : M R A :=
  λ st, match body st with
        | (Raise e, st') =>
            if decide (exn_class e = cls) then handler e st' else (Raise e, st')
        | other => other
        end.

(** The result of a call of a function of the program. *)
Inductive Result (R : Type) :=
  | Returned (r : R)
  | Raised (e : Exn).
Global Arguments Returned {R} r.
Global Arguments Raised {R} e.

(** A function body; [none] is what [None], the value of a body that
    falls off its end, counts as to the caller. *)
Definition def {R} (none : R) (body : M R unit) : State → Result R * State :=
  λ st, match body st with
        | (Normal _, st') => (Returned none, st')
        | (Return r, st') => (Returned r, st')
        | (Raise e, st') => (Raised e, st')
        end.

(** A call of a function of the program, as an expression. *)
Definition invoke {R R'} (f : State → Result R * State) : M R' R :=
  λ st, match f st with
        | (Returned r, st') => (Normal r, st')
        | (Raised e, st') => (Raise e, st')
        end.

Definition get_state {R} : M R State := λ st, (Normal st, st).
Definition modify {R} (f : State → State) : M R unit := λ st, (Normal (), f st).

Definition logging_info {R} (msg : string) : M R unit := modify (record_log INFO msg).
Definition logging_warning {R} (msg : string) : M R unit := modify (record_log WARNING msg).
Definition logging_error {R} (msg : string) : M R unit := modify (record_log ERROR msg).

(** [time.sleep(seconds)] *)
Definition sleep {R} (seconds : nat) : M R unit := modify (record_event (Sleep seconds)).

Record Chat := { chat_id : string; chat_element : WebElement }.

Section Program.
Context (env : Env).

(** A call on the environment: it is recorded, and raises or answers as
    the oracle says. *)
Definition call_for {R A} (answer : Env → list Event → Event → A)
    (ev : Event) : M R A :=
  λ st, match env_fault env (trace st) ev with
        | Some e => (Raise e, record_event ev st)
        | None => (Normal (answer env (trace st) ev), record_event ev st)
        end.

Definition call {R} : Event → M R unit := call_for (λ _ _ _, ()).
Definition call_element {R} : Event → M R WebElement := call_for env_element.
Definition call_elements {R} : Event → M R (list WebElement) := call_for env_elements.
Definition call_attribute {R} : Event → M R (option string) := call_for env_attribute.
Definition call_flag {R} : Event → M R bool := call_for env_flag.

(** *** [_load_deleted_log] *)

(** [set(json.load(f))]; the texts of the messages are not modelled.
    A member that is no string of the model (a number, [true], [false],
    [null], a string with a code point above 255) cannot be held by the
    state: the set of the model is then the set of the program without
    those members. *)
Definition load_ids {R} (text : string) : M R (gset string) :=
  λ st, match Json.loads text with
        | Some v =>
            match Json.as_set v with
            | Json.Members ids | Json.Foreign ids => (Normal (list_to_set ids), st)
            | Json.NotASet =>
                (Raise {| exn_class := OtherException; exn_str := "TypeError" |}, st)
            end
        | None => (Raise {| exn_class := OtherException;
                            exn_str := "JSONDecodeError" |}, st)
        end.

Definition _load_deleted_log : State → Result unit * State :=
  def ()
    (st ← get_state;
     match disk st with
     | Some text =>                       (* Path(DELETED_LOG_FILE).exists() *)
         try_except
           (call (Open DELETED_LOG_FILE "r");;
            ids ← load_ids text;
            modify (set_deleted_chat_ids ids);;
            st' ← get_state;
            logging_info ("Loaded " +:+ pretty (size (deleted_chat_ids st'))
                            +:+ " deleted chat IDs"))
           (λ e, logging_warning ("Could not load deleted chats log: " +:+ exn_str e))
     | None => mret ()
     end).

(** *** [_save_deleted_log] *)

Definition _save_deleted_log : State → Result unit * State :=
  def ()
    (try_except
       (call (Open DELETED_LOG_FILE "w");;
        st ← get_state;
        modify (set_disk (Some (Json.json_dump (elements (deleted_chat_ids st))))))
       (λ e, logging_warning ("Could not save deleted chats log: " +:+ exn_str e))).

(** *** [get_firefox_profile] and [__init__] *)

(** The profile directory is a fact of the machine the program runs on. *)
Definition get_firefox_profile : option string := env_profile env.

Definition __init__ (headless : bool) (disk0 : option string) : Result State :=
  let fresh profile_path :=
    {| deleted_chat_ids := ∅;
       current_error_chat_id := None;
       dark_mode_error_count := 0;
       options := (if headless then ["--headless"] else [])
                    ++ ["-profile"; profile_path];
       disk := disk0; trace := []; log := [] |} in
  match get_firefox_profile with
  | Some (String c p) =>
      match _load_deleted_log (fresh (String c p)) with
      | (Returned _, st) => Returned st
      | (Raised e, _) => Raised e
      end
  | _ =>                                   (* if not self.profile_path *)
      Raised {| exn_class := OtherException;
                exn_str := "No Firefox profile found!" |}
  end.

(** *** [_get_chats] *)

(** [href and '/c/' in href] *)
Definition is_chat_href (href : option string) : bool :=
  match href with
  | Some h => PyStr.truthy h && PyStr.contains "/c/" h
  | None => false
  end.

(** The body of [for element in elements]. *)
Definition get_chat (element : WebElement) (chats : list Chat) :
    M (list Chat) (list Chat) :=
  try_except
    (href ← call_attribute (GetAttribute element "href");
     if is_chat_href href then
       let chat_id := PyStr.last_piece (PyStr.split "/" (default "" href)) in
       st ← get_state;
       if decide (chat_id ∈ deleted_chat_ids st) then mret chats
       else mret (chats ++ [{| chat_id := chat_id; chat_element := element |}])
     else mret chats)
    (λ _, mret chats).

Fixpoint get_chats_from (elements : list WebElement) (chats : list Chat) :
    M (list Chat) (list Chat) :=
  match elements with
  | [] => mret chats
  | element :: rest =>
      chats' ← get_chat element chats;
      get_chats_from rest chats'
  end.

Definition _get_chats : State → Result (list Chat) * State :=
  def []
    (try_except
       (call (WaitUntil Driver WAIT_TIMEOUT presence_of_element_located
                CSS_SELECTOR CHAT_LINK);;
        elements ← call_elements (FindElements CSS_SELECTOR CHAT_LINK);
        chats ← get_chats_from elements [];
        return_ chats)
       (λ e, logging_error ("Error getting chats: " +:+ exn_str e);;
             return_ [])).

(** *** [_find_delete_button_in_menu] *)

Definition _find_delete_button_in_menu : State → Result (option WebElement) * State :=
  def None
    (try_except
       (call (WaitUntil Driver WAIT_TIMEOUT presence_of_element_located
                CSS_SELECTOR DELETE_MENU_ITEM);;
        delete_button ← call_element (FindElement Driver CSS_SELECTOR DELETE_MENU_ITEM);
        return_ (Some delete_button))
       (λ e, logging_warning ("Error finding menu delete button: " +:+ exn_str e);;
             return_ None)).

(** *** [_delete_chat]

    The body follows the numbered steps of the source.
    [_find_delete_button_in_confirm] and
    [_try_confirm_button_with_retries] are never called by the program
    and are not modelled. *)

(** The counting of dark-mode faults, shared by the handler of the
    options click and the handler of the whole body. *)
Definition count_dark_mode_error (chat : Chat) : M bool unit :=
  modify (λ st, set_dark_mode_error_count (dark_mode_error_count st + 1) st);;
  st ← get_state;
  logging_warning ("Dark mode error count for chat " +:+ chat_id chat +:+ ": "
                     +:+ pretty (dark_mode_error_count st));;
  if decide (5 ≤ dark_mode_error_count st) then
    logging_warning "Refreshing page due to multiple dark mode errors";;
    call Refresh;;
    sleep 3;;
    modify (set_dark_mode_error_count 0);;
    return_ false
  else mret ().

Definition on_fault (chat : Chat) (e : Exn) : M bool unit :=
  (if PyStr.contains DARK_MODE_MARKER (exn_str e)
   then count_dark_mode_error chat
   else logging_error ("Unexpected error: " +:+ exn_str e));;
  return_ false.

(** The quick cleanup of overlays and the tracking of the chat. *)
Definition step_0_prepare (chat : Chat) : M bool unit :=
  call (ExecuteScript CLEANUP_SCRIPT);;
  st ← get_state;
  if decide (current_error_chat_id st ≠ Some (chat_id chat)) then
    modify (set_current_error_chat_id (Some (chat_id chat)));;
    modify (set_dark_mode_error_count 0)
  else mret ().

(** 1. Click the chat link itself. *)
Definition step_1_click_chat (chat : Chat) : M bool unit :=
  call (Click (chat_element chat));;
  sleep 1.

(** 2. Hover over the container, 3. locate the three-dot button in it. *)
Definition step_2_3_locate_menu_button (chat : Chat) : M bool WebElement :=
  chat_container ← call_element (FindElement (Within (chat_element chat)) XPATH "..");
  call (Perform [move_to_element chat_container]);;
  sleep 1;;
  menu_button ← call_element
    (WaitUntil (Within chat_container) WAIT_TIMEOUT visibility_of_element_located
       CSS_SELECTOR OPTIONS_BUTTON);
  displayed ← call_flag (IsDisplayed menu_button);
  enabled ← call_flag (IsEnabled menu_button);
  logging_info ("Menu button displayed? " +:+ PyStr.of_bool displayed
                  +:+ ", enabled? " +:+ PyStr.of_bool enabled);;
  mret menu_button.

(** The click on the three-dot button, with its own handler. *)
Definition step_3_click_menu_button (chat : Chat) (menu_button : WebElement) :
    M bool unit :=
  try_except_class ElementClickInterceptedException
    (call (Perform [move_to_element menu_button; pause_half_second; click menu_button]);;
     sleep 1)
    (on_fault chat).

(** 4. Wait for the Delete item of the menu and click it. *)
Definition step_4_click_delete (chat : Chat) : M bool unit :=
  delete_button ← invoke _find_delete_button_in_menu;
  match delete_button with
  | None =>
      logging_warning "Delete button not found in menu after waiting";;
      return_ false
  | Some button =>
      call (Click button);;
      sleep 1
  end.

(** 5. Look for the confirmation dialog: [dialog_found]. *)
Fixpoint find_dialog (selectors : list string) : M bool bool :=
  match selectors with
  | [] => mret false
  | selector :: rest =>
      try_except_class TimeoutException
        (call (WaitUntil Driver 3 presence_of_element_located CSS_SELECTOR selector);;
         logging_info ("Found dialog with selector: " +:+ selector);;
         mret true)
        (λ _, find_dialog rest)
  end.

Definition step_5_find_dialog : M bool unit :=
  dialog_found ← find_dialog dialog_selectors;
  match dialog_found with
  | true => mret ()
  | false =>
      logging_warning "Could not find confirmation dialog";;
      return_ false
  end.

(** 6. The inner loop over the selectors of one attempt: [success]. *)
Fixpoint try_selectors (selectors : list string) : M bool bool :=
  match selectors with
  | [] => mret false
  | selector :: rest =>
      try_except
        (confirm_button ← call_element (FindElement Driver XPATH selector);
         call (Click confirm_button);;
         mret true)
        (λ e, if decide (exn_class e = NoSuchElementException)
              then try_selectors rest
              else logging_error ("Error with selector " +:+ selector +:+ ": "
                                    +:+ exn_str e);;
                   try_selectors rest)
  end.

(** The outer loop, [for attempt in range(5)]. *)
Fixpoint confirm_attempts (attempts : list nat) : M bool bool :=
  match attempts with
  | [] => mret false
  | attempt :: rest =>
      (if decide (0 < attempt) then sleep 1 else mret ());;
      success ← try_selectors button_selectors;
      match success with
      | true => mret true                   (* break *)
      | false => confirm_attempts rest
      end
  end.

Definition step_6_confirm : M bool unit :=
  success ← confirm_attempts (seq 0 5);
  match success with
  | true => mret ()
  | false =>
      logging_warning "All confirmation button click attempts failed";;
      call Refresh;;
      sleep 5;;
      modify (set_dark_mode_error_count 0);;
      return_ false
  end.

(** 7. Verify the chat is gone: [while retries < 3], with
    [remaining = 3 - retries]. *)
Fixpoint verify_gone (chat : Chat) (remaining : nat) : M bool unit :=
  match remaining with
  | O => mret ()
  | S remaining' =>
      try_except_class NoSuchElementException
        (_ ← call_element (FindElement Driver CSS_SELECTOR (chat_link_of (chat_id chat)));
         sleep 1)
        (λ _, logging_info ("Successfully deleted chat " +:+ chat_id chat);;
              return_ true);;
      verify_gone chat remaining'
  end.

Definition step_7_verify (chat : Chat) : M bool unit :=
  sleep 3;;
  verify_gone chat 3;;
  logging_warning "Chat still exists after deletion attempt";;
  return_ false.

(** The handler of the whole body. *)
Definition on_error (chat : Chat) (e : Exn) : M bool unit :=
  logging_error ("Error in deletion process for chat " +:+ chat_id chat +:+ ": "
                   +:+ exn_str e);;
  on_fault chat e.

Definition delete_chat_body (chat : Chat) : M bool unit :=
  step_0_prepare chat;;
  step_1_click_chat chat;;
  menu_button ← step_2_3_locate_menu_button chat;
  step_3_click_menu_button chat menu_button;;
  step_4_click_delete chat;;
  step_5_find_dialog;;
  step_6_confirm;;
  step_7_verify chat.

Definition _delete_chat (chat : Chat) : State → Result bool * State :=
  def false (try_except (delete_chat_body chat) (on_error chat)).

(** *** [run] *)

(** The body of [for chat in chats]. *)
Definition delete_and_record (chat : Chat) : M unit unit :=
  deleted ← invoke (_delete_chat chat);
  match deleted with
  | true =>
      modify (λ st, set_deleted_chat_ids ({[chat_id chat]} ∪ deleted_chat_ids st) st);;
      invoke _save_deleted_log;;
      logging_info ("Deleted chat " +:+ chat_id chat)
  | false =>
      logging_warning ("Failed to delete chat " +:+ chat_id chat)
  end.

Fixpoint delete_chats (chats : list Chat) : M unit unit :=
  match chats with
  | [] => mret ()
  | chat :: rest =>
      delete_and_record chat;;
      delete_chats rest
  end.

(** One turn of [while True]; the value says whether the loop breaks. *)
Definition scan_and_delete : M unit bool :=
  chats ← invoke _get_chats;
  match chats with
  | [] =>
      logging_info "No more chats to delete";;
      mret true
  | _ :: _ =>
      delete_chats chats;;
      sleep 1;;
      mret false
  end.

(** [while True], for at most [fuel] turns: [None] when the loop is
    still running after them. *)
Fixpoint main_loop (fuel : nat) (st : State) : option (Outcome unit unit) * State :=
  match fuel with
  | O => (None, st)
  | S fuel' =>
      match scan_and_delete st with
      | (Normal true, st') => (Some (Normal ()), st')
      | (Normal false, st') => main_loop fuel' st'
      | (Return r, st') => (Some (Return r), st')
      | (Raise e, st') => (Some (Raise e), st')
      end
  end.

(** [except Exception as e] and [finally] of [run], once the driver exists. *)
Definition finish (r : Outcome unit unit) (st : State) : Result unit * State :=
  def ()
    (match r with
     | Raise e => logging_error ("Error during execution: " +:+ exn_str e)
     | _ => mret ()
     end;;
     try_except (call Quit) (λ _, mret ()))
    st.

Definition run (fuel : nat) (st : State) : option (Result unit) * State :=
  match call (R:=unit) (Firefox (options st)) st with
  | (Normal _, st1) =>
      match (call (Get BASE_URL);;
             call (R:=unit) (WaitUntil Driver WAIT_TIMEOUT presence_of_element_located
                     TAG_NAME "body")) st1 with
      | (Normal _, st2) =>
          match main_loop fuel st2 with
          | (Some r, st3) => let (res, st4) := finish r st3 in (Some res, st4)
          | (None, st3) => (None, st3)
          end
      | (r, st2) => let (res, st3) := finish r st2 in (Some res, st3)
      end
  | (Raise e, st1) =>                     (* driver is None: nothing to quit *)
      (Some (Returned ()),
       record_log ERROR ("Error during execution: " +:+ exn_str e) st1)
  | (Return _, st1) => (Some (Returned ()), st1)
  end.

End Program.

(** ** Environments and states used in the examples *)

Definition fresh_state (disk0 : option string) : State :=
  {| deleted_chat_ids := ∅;
     current_error_chat_id := None;
     dark_mode_error_count := 0;
     options := ["--headless"; "-profile"; "/home/user/.mozilla/firefox/x.default"];
     disk := disk0; trace := []; log := [] |}.

(** An environment in which no call raises: every search finds element
    [0], the sidebar shows the [links], each element's [href] is its
    entry of [hrefs]. *)
Definition env_quiet (links : list WebElement) (hrefs : list string) : Env :=
  {| env_profile := Some "/home/user/.mozilla/firefox/x.default";
     env_fault := λ _ _, None;
     env_element := λ _ _, 0;
     env_elements := λ _ _, links;
     env_attribute := λ _ ev,
       match ev with
       | GetAttribute e _ => hrefs !! e
       | _ => None
       end;
     env_flag := λ _ _, true |}.

(** ** Observations on states *)

(** A statement or function [m] leaves the observation [f] as it was. *)
Definition keeps {X T} (f : State → X) (m : State → T * State) : Prop :=
  ∀ st, f (m st).2 = f st.

(** The set of deleted identifiers together with the file on disk. *)
Definition store (st : State) : gset string * option string :=
  (deleted_chat_ids st, disk st).

(** The number of page reloads so far. *)
Definition reloads (st : State) : nat :=
  length (filter (λ ev, ev = Refresh) (trace st)).


(** No conversation that is still to be deleted shows up for the scan
    made from [st]: the wait for a link raises (its time-out), or every
    link the sidebar shows belongs to a deleted conversation. *)
Definition no_pending_link (env : Env) (st : State) : Prop :=
  is_Some (env_fault env (trace st)
             (WaitUntil Driver WAIT_TIMEOUT presence_of_element_located
                CSS_SELECTOR CHAT_LINK))
  ∨ ∀ h element,
      env_fault env h (GetAttribute element "href") = None →
      is_chat_href (env_attribute env h (GetAttribute element "href")) = true →
      PyStr.last_piece
        (PyStr.split "/" (default "" (env_attribute env h (GetAttribute element "href"))))
        ∈ deleted_chat_ids st.


(** ** Points of [_delete_chat]

    The statements of the body that come before a given step, to say
    that a run has reached that step. *)

Definition before_step_3 (env : Env) (chat : Chat) : M bool WebElement :=
  step_0_prepare env chat;;
  step_1_click_chat env chat;;
  step_2_3_locate_menu_button env chat.

Definition before_step_4 (env : Env) (chat : Chat) : M bool unit :=
  menu_button ← before_step_3 env chat;
  step_3_click_menu_button env chat menu_button.

(** Up to the search for the Delete item of the menu, whose result it
    yields. *)
Definition before_delete_click (env : Env) (chat : Chat) : M bool (option WebElement) :=
  before_step_4 env chat;;
  invoke (_find_delete_button_in_menu env).

Definition before_step_6 (env : Env) (chat : Chat) : M bool unit :=
  before_step_4 env chat;;
  step_4_click_delete env chat;;
  step_5_find_dialog env.

Definition before_step_7 (env : Env) (chat : Chat) : M bool unit :=
  before_step_6 env chat;;
  step_6_confirm env.

(** The click on the three-dot button. *)
Definition options_click (menu_button : WebElement) : Event :=
  Perform [move_to_element menu_button; pause_half_second; click menu_button].

(** The poll for the chat's link. *)
Definition link_poll (chat : Chat) : Event :=
  FindElement Driver CSS_SELECTOR (chat_link_of (chat_id chat)).

(** The three clicks of [_delete_chat] outside the confirmation loop,
    with the state in which each is made: on the chat link, on the
    three-dot button, on the Delete item of the menu. *)
Inductive reaches_click (env : Env) (chat : Chat) (st : State) : State → Event → Prop :=
  | reaches_chat_link st1 :
      step_0_prepare env chat st = (Normal (), st1) →
      reaches_click env chat st st1 (Click (chat_element chat))
  | reaches_options_button menu_button st1 :
      before_step_3 env chat st = (Normal menu_button, st1) →
      reaches_click env chat st st1 (options_click menu_button)
  | reaches_delete_item button st1 :
      before_delete_click env chat st = (Normal (Some button), st1) →
      reaches_click env chat st st1 (Click button).

(** The run from [st] reaches the click on the three-dot button, which
    raises [e], an [ElementClickInterceptedException]. *)
Definition options_click_intercepted (env : Env) (chat : Chat) (st : State) (e : Exn) : Prop :=
  ∃ menu_button st1,
    before_step_3 env chat st = (Normal menu_button, st1)
    ∧ env_fault env (trace st1) (options_click menu_button) = Some e
    ∧ exn_class e = ElementClickInterceptedException.

(** The state after [n] consecutive calls of [_delete_chat] on [chat]. *)
Fixpoint delete_repeatedly (env : Env) (chat : Chat) (n : nat) (st : State) : State :=
  match n with
  | O => st
  | S k => (_delete_chat env chat (delete_repeatedly env chat k st)).2
  end.

(** The state after the calls [evs], oldest first. *)
Definition record_events (evs : list Event) (st : State) : State :=
  foldl (λ s ev, record_event ev s) st evs.

(** The searches of the confirmation loop when no selector finds a
    button, oldest first. *)
Definition attempts_events (attempts : list nat) : list Event :=
  attempts ≫= λ attempt,
    (if decide (0 < attempt) then [Sleep 1] else [])
      ++ (FindElement Driver XPATH <$> button_selectors).

Definition absent_button_events : list Event := attempts_events (seq 0 5).

(** No selector locates the button: every search raises
    [NoSuchElementException]. *)
Definition button_absent (env : Env) (selectors : list string) : Prop :=
  ∀ selector h, selector ∈ selectors →
    ∃ e, env_fault env h (FindElement Driver XPATH selector) = Some e
         ∧ exn_class e = NoSuchElementException.

(** A statement that never executes [return True]. *)
Definition never_returns_true {A} (m : M bool A) : Prop :=
  ∀ st, (m st).1 ≠ Return true.

(** The last call made is the poll for the chat's link, and it raised
    [NoSuchElementException]. *)
Definition link_seen_gone (env : Env) (chat : Chat) (st : State) : Prop :=
  ∃ h e, trace st = link_poll chat :: h
    ∧ env_fault env h (link_poll chat) = Some e
    ∧ exn_class e = NoSuchElementException.

(** ** More environments for the examples *)

Definition intercepted (message : string) : Exn :=
  {| exn_class := ElementClickInterceptedException; exn_str := message |}.

Definition no_such_element : Exn :=
  {| exn_class := NoSuchElementException;
     exn_str := "Message: Unable to locate element" |}.

(** An overlay that is not the dark-mode page covers the element. *)
Definition OBSCURED_BY_DIV : string :=
  "Message: Element is not clickable at point (10,10) because another element <div> obscures it".

Definition OBSCURED_BY_DARK_HTML : string :=
  "Message: Element is not clickable at point (10,10) " +:+ DARK_MODE_MARKER
    +:+ " obscures it".

(** [env_quiet] where a chosen kind of call raises. *)
Definition env_faulty (fault : list Event → Event → option Exn) : Env :=
  {| env_profile := Some "/home/user/.mozilla/firefox/x.default";
     env_fault := fault;
     env_element := λ _ ev,
       match ev with
       | FindElement Driver XPATH _ => 5      (* a button of the dialog *)
       | FindElement Driver CSS_SELECTOR _ => 4
       | WaitUntil (Within _) _ _ _ _ => 3    (* the three-dot button *)
       | FindElement (Within _) _ _ => 2      (* the container of the link *)
       | _ => 1
       end;
     env_elements := λ _ _, [0];
     env_attribute := λ _ _, Some "https://chat.openai.com/c/abc";
     env_flag := λ _ _, true |}.

Definition chat_abc : Chat := {| chat_id := "abc"; chat_element := 0 |}.

(** The click on the three-dot button is always intercepted. *)
Definition env_options_intercepted (message : string) : Env :=
  env_faulty (λ _ ev, match ev with
                      | Perform [_; _; _] => Some (intercepted message)
                      | _ => None
                      end).

(** No selector finds a button in the confirmation dialog. *)
Definition env_no_button : Env :=
  env_faulty (λ _ ev, match ev with
                      | FindElement Driver XPATH _ => Some no_such_element
                      | _ => None
                      end).

(** The deletion goes through: the chat's link is gone at the first poll. *)
Definition env_deleted : Env :=
  env_faulty (λ _ ev, match ev with
                      | FindElement Driver CSS_SELECTOR sel =>
                          if decide (sel = DELETE_MENU_ITEM) then None
                          else Some no_such_element
                      | _ => None
                      end).

(** As [env_deleted], but the first click on a button of the dialog is
    intercepted by an element that is not the dark-mode page. *)
Definition env_confirm_intercepted : Env :=
  env_faulty (λ h ev, match ev with
                      | Click 5 =>
                          if decide (Click 5 ∈ h) then None
                          else Some (intercepted OBSCURED_BY_DIV)
                      | FindElement Driver CSS_SELECTOR sel =>
                          if decide (sel = DELETE_MENU_ITEM) then None
                          else Some no_such_element
                      | _ => None
                      end).

(** The click on the chat link is intercepted by the dark-mode page,
    and the page cannot be reloaded. *)
Definition env_reload_fails : Env :=
  env_faulty (λ _ ev, match ev with
                      | Click 0 => Some (intercepted OBSCURED_BY_DARK_HTML)
                      | Refresh =>
                          Some {| exn_class := OtherException;
                                  exn_str := "Message: Failed to decode response from marionette" |}
                      | _ => None
                      end).


(** The counter as [_delete_chat] sees it after the tracking of the
    chat: kept when the last chat worked on was this one, else reset. *)
Definition tracked_count (chat : Chat) (st : State) : nat :=
  if decide (current_error_chat_id st = Some (chat_id chat))
  then dark_mode_error_count st else 0.

(** The error tracking and the number of reloads. *)
Definition counters (st : State) : option string * nat * nat :=
  (current_error_chat_id st, dark_mode_error_count st, reloads st).


(** * The rest of the program *)

(** ** [get_firefox_profile]

    The function reads the platform, the home directory and the entries
    of the directory of profiles; these are the [Machine].  A path is
    the list of its components, which [str] joins with the separator of
    the platform. *)

Module Profile.

Record Machine := {
  system : string;                            (* platform.system() *)
  home : list string;                         (* Path.home() *)
  glob : list string → list (string * bool)
    (* base_dir.glob("*"): the name of each entry and whether it is a
       directory, in the order of the iteration *)
}.

Definition base_dir (m : Machine) : option (list string) :=
  if String.eqb (system m) "Linux" then
    Some (home m ++ [".mozilla"; "firefox"])
  else if String.eqb (system m) "Windows" then
    Some (home m ++ ["AppData"; "Roaming"; "Mozilla"; "Firefox"; "Profiles"])
  else if String.eqb (system m) "Darwin" then
    Some (home m ++ ["Library"; "Application Support"; "Firefox"; "Profiles"])
  else None.

(** [subdir.is_dir() and ("default" in subdir.name or "release" in subdir.name)] *)
Definition is_profile (entry : string * bool) : bool :=
  entry.2 && (PyStr.contains "default" entry.1 || PyStr.contains "release" entry.1).

(** [for subdir in base_dir.glob("*")] *)
Fixpoint first_profile (base : list string) (entries : list (string * bool)) :
    option (list string) :=
  match entries with
  | [] => None
  | entry :: rest =>
      if is_profile entry then Some (base ++ [entry.1])
      else first_profile base rest
  end.

Definition get_firefox_profile (m : Machine) : option (list string) :=
  match base_dir m with
  | Some base => first_profile base (glob m base)
  | None => None
  end.

End Profile.

(** ** [_try_confirm_button_with_retries]

    The program never calls it; it is modelled as it is written. *)

Definition CONFIRM_BUTTON : string :=
  "/html/body/div[5]/div/div/div/div[2]/div[2]/button[1]".

(** The body of [for attempt in range(max_attempts)]. *)
Definition try_confirm_attempt (env : Env) (max_attempts : Z) (attempt : nat) :
    M bool unit :=
  try_except
    ((if decide (0 < attempt) then sleep 1 else mret ());;
     confirm_button ← call_element env (FindElement Driver XPATH CONFIRM_BUTTON);
     call env (Click confirm_button);;
     return_ true)
    (λ e, if decide (exn_class e = NoSuchElementException)
          then logging_warning ("Could not find confirmation button (Attempt "
                                  +:+ pretty (attempt + 1) +:+ "/"
                                  +:+ pretty max_attempts +:+ ")")
          else logging_error ("Error clicking confirm button: " +:+ exn_str e)).

Fixpoint try_confirm_attempts (env : Env) (max_attempts : Z) (attempts : list nat) :
    M bool unit :=
  match attempts with
  | [] => mret ()
  | attempt :: rest =>
      try_confirm_attempt env max_attempts attempt;;
      try_confirm_attempts env max_attempts rest
  end.

Definition _try_confirm_button_with_retries (env : Env) (max_attempts : Z) :
    State → Result bool * State :=
  def false
    (try_confirm_attempts env max_attempts (seq 0 (Z.to_nat max_attempts));;
     logging_warning "All confirmation button click attempts failed";;
     call env Refresh;;
     sleep 5;;
     return_ false).

(** ** The script, [if __name__ == "__main__"] *)

(** [os.environ.get("HEADLESS", "1") == "1"] *)
Definition headless_of (HEADLESS : option string) : bool :=
  String.eqb (default "1" HEADLESS) "1".

(** How the script ends: [ChatGPTDeleter(...)] raises, or [run] is
    still in its loop after [fuel] turns, or [run] has ended. *)
Inductive Ending :=
  | Crashed (e : Exn)
  | Running (st : State)
  | Ended (r : Result unit) (st : State).

Definition main (env : Env) (HEADLESS : option string) (disk0 : option string)
    (fuel : nat) : Ending :=
  match __init__ env (headless_of HEADLESS) disk0 with
  | Raised e => Crashed e
  | Returned deleter =>
      match run env fuel deleter with
      | (Some r, st) => Ended r st
      | (None, st) => Running st
      end
  end.

(** ** Vocabulary of the further properties *)

(** The chat that [_get_chats] makes of an element whose [href] is
    known, if it makes one. *)
Definition chat_of_link (deleted : gset string) (href : option string)
    (element : WebElement) : option Chat :=
  if is_chat_href href then
    let id := PyStr.last_piece (PyStr.split "/" (default "" href)) in
    if decide (id ∈ deleted) then None
    else Some {| chat_id := id; chat_element := element |}
  else None.

(** Every identifier the file lists is in the set in memory. *)
Definition persisted_within (st : State) : Prop :=
  ∀ text ids,
    disk st = Some text → Json.json_load text = Some ids →
    ∀ id, id ∈ ids → id ∈ deleted_chat_ids st.

(** The calls of step 7 when the first [found] polls find the link,
    oldest first. *)
Definition polls_found (chat : Chat) (found : nat) : list Event :=
  Sleep 3 :: concat (replicate found [link_poll chat; Sleep 1]).

(** A statement that keeps a property of the state. *)
Definition preserves {T} (P : State → Prop) (m : State → T * State) : Prop :=
  ∀ st, P st → P (m st).2.

(** A statement that reloads the page only on its way to a
    [return False], and then once. *)
Definition reloads_once {A} (m : M bool A) : Prop :=
  ∀ st, match (m st).1 with
        | Return false => reloads (m st).2 ≤ reloads st + 1
        | _ => reloads (m st).2 = reloads st
        end.

(** The fault counter is below the threshold of the reload. *)
Definition few_faults (st : State) : Prop := dark_mode_error_count st ≤ 4.

(** The last call made was a click, and it did not raise. *)
Definition just_clicked (env : Env) (st : State) : Prop :=
  ∃ button h, trace st = Click button :: h ∧ env_fault env h (Click button) = None.

(** ** Machines and environments for the further examples *)

Definition linux_machine (entries : list (string * bool)) : Profile.Machine :=
  {| Profile.system := "Linux";
     Profile.home := ["/"; "home"; "user"];
     Profile.glob := λ _, entries |}.

(** A sidebar that does not change: the [links] it shows, the [href] of
    each, and the elements that have gone stale. *)
Definition env_sidebar (links : list WebElement) (href_of : WebElement → option string)
    (stale : WebElement → option Exn) : Env :=
  {| env_profile := Some "/home/user/.mozilla/firefox/x.default";
     env_fault := λ _ ev,
       match ev with
       | GetAttribute e _ => stale e
       | _ => None
       end;
     env_element := λ _ _, 0;
     env_elements := λ _ _, links;
     env_attribute := λ _ ev,
       match ev with
       | GetAttribute e _ => href_of e
       | _ => None
       end;
     env_flag := λ _ _, true |}.


(** The searches of [_try_confirm_button_with_retries] when the button
    is never found, oldest first. *)
Definition retry_events (attempts : list nat) : list Event :=
  attempts ≫= λ attempt,
    (if decide (0 < attempt) then [Sleep 1] else [])
      ++ [FindElement Driver XPATH CONFIRM_BUTTON].


(** The chat [c] was made of an [href] that its element answered. *)
Definition from_link (env : Env) (deleted : gset string) (c : Chat) : Prop :=
  ∃ h, env_fault env h (GetAttribute (chat_element c) "href") = None
    ∧ chat_of_link deleted (env_attribute env h (GetAttribute (chat_element c) "href"))
        (chat_element c) = Some c.


(** The link of [chat_abc] is found at the first poll and gone at the
    next ones. *)
Definition env_deleted_late : Env :=
  env_faulty (λ h ev,
    if decide (ev = link_poll chat_abc ∧ link_poll chat_abc ∈ h)
    then Some no_such_element else None).


(** The identifier was read from the [href] of a link: some element
    answered an [href] that contains [/c/] and ends in the identifier. *)
Definition read_from_link (env : Env) (id : string) : Prop :=
  ∃ h element href,
    env_fault env h (GetAttribute element "href") = None
    ∧ env_attribute env h (GetAttribute element "href") = Some href
    ∧ PyStr.contains "/c/" href = true
    ∧ id = PyStr.last_piece (PyStr.split "/" href).

(** Some search for the link of the identifier raised
    [NoSuchElementException]. *)
Definition seen_gone (env : Env) (id : string) : Prop :=
  ∃ h e,
    env_fault env h (FindElement Driver CSS_SELECTOR (chat_link_of id)) = Some e
    ∧ exn_class e = NoSuchElementException.


(** ** The menu item and the dialog *)

(** The two calls of [_find_delete_button_in_menu]. *)
Definition menu_item_wait : Event :=
  WaitUntil Driver WAIT_TIMEOUT presence_of_element_located CSS_SELECTOR DELETE_MENU_ITEM.

Definition menu_item_search : Event :=
  FindElement Driver CSS_SELECTOR DELETE_MENU_ITEM.

Definition before_step_5 (env : Env) (chat : Chat) : M bool unit :=
  before_step_4 env chat;;
  step_4_click_delete env chat.

(** The wait for the dialog under one selector. *)
Definition dialog_wait (selector : string) : Event :=
  WaitUntil Driver 3 presence_of_element_located CSS_SELECTOR selector.

(** No selector shows a dialog: every wait runs into its time-out. *)
Definition dialog_absent (env : Env) : Prop :=
  ∀ selector h, selector ∈ dialog_selectors →
    ∃ e, env_fault env h (dialog_wait selector) = Some e
         ∧ exn_class e = TimeoutException.

Definition timed_out : Exn :=
  {| exn_class := TimeoutException; exn_str := "Message: " |}.

(** The wait for the Delete item of the menu is obscured. *)
Definition env_no_menu_item : Env :=
  env_faulty (λ _ ev, if decide (ev = menu_item_wait)
                      then Some (intercepted OBSCURED_BY_DARK_HTML) else None).

(** The menu works, no dialog ever shows. *)
Definition env_no_dialog : Env :=
  env_faulty (λ _ ev, match ev with
                      | WaitUntil Driver 3 _ _ _ => Some timed_out
                      | _ => None
                      end).


(** The file is there and cannot be opened. *)
Definition permission_denied : Exn :=
  {| exn_class := OtherException;
     exn_str := "[Errno 13] Permission denied: 'deleted_chats.json'" |}.

Definition env_unreadable : Env :=
  env_faulty (λ _ ev, match ev with
                      | Open _ _ => Some permission_denied
                      | _ => None
                      end).

(** * Properties *)

(** ** Strings *)

Module PyStrFacts.
Import PyStr.

Lemma app_nil (t : string) : "" +:+ t = t.
Proof. reflexivity. Qed.

Lemma app_cons (c : ascii) (s t : string) :
  String c s +:+ t = String c (s +:+ t).
Proof. reflexivity. Qed.

Lemma app_assoc (s t u : string) : (s +:+ t) +:+ u = s +:+ (t +:+ u).
Proof.
  induction s as [|c s IH]; [reflexivity|].
  rewrite !app_cons. by rewrite IH.
Qed.

Lemma length_app (s t : string) :
  String.length (s +:+ t) = String.length s + String.length t.
Proof.
  induction s as [|c s IH]; [reflexivity|].
  rewrite app_cons. cbn [String.length]. by rewrite IH.
Qed.

Lemma split_nonempty (sep : ascii) (s : string) : split sep s ≠ [].
Proof.
  induction s as [|c s IH]; [done|].
  cbn [split]. destruct (Ascii.eqb c sep); [done|].
  by destruct (split sep s).
Qed.

End PyStrFacts.

(** ** The persisted format reads back what was written *)

Module JsonFacts.
Import PyStr PyStrFacts Json.

(** One escaped character is read back as that character. *)
Lemma parse_escape_char (c : ascii) (rest : string) :
  parse_chars (escape_char c +:+ rest) = push c (parse_chars rest).
Proof.
  destruct c as [b0 b1 b2 b3 b4 b5 b6 b7].
  destruct b0, b1, b2, b3, b4, b5, b6, b7; reflexivity.
Qed.

Lemma parse_escape (s rest : string) :
  parse_chars (escape s +:+ String dq rest) = Some (s, rest).
Proof.
  induction s as [|c s IH]; [reflexivity|].
  cbn [escape]. rewrite app_assoc, parse_escape_char, IH. reflexivity.
Qed.

Lemma join_items_encode (x : string) (ids : list string) :
  join_items (encode_str <$> (x :: ids)) = encode_str x +:+ more_items ids.
Proof.
  revert x. induction ids as [|y ids IH]; intros x.
  - cbn. induction (encode_str x) as [|c s IHs]; [done|].
    by rewrite app_cons, <- IHs.
  - change (join_items (encode_str <$> x :: y :: ids))
      with (encode_str x +:+ ", " +:+ join_items (encode_str <$> (y :: ids))).
    rewrite IH. reflexivity.
Qed.

Lemma parse_rest_close (fuel : nat) (s : string) :
  parse_rest (S fuel) (String "]" s) = Some ([], s).
Proof. reflexivity. Qed.

Lemma parse_rest_comma (fuel : nat) (s : string) :
  parse_rest (S fuel) (String "," (String " " (String dq s))) =
  match parse_chars s with
  | Some (x, s3) =>
      match parse_rest fuel s3 with
      | Some (xs, s4) => Some (x :: xs, s4)
      | None => None
      end
  | None => None
  end.
Proof. reflexivity. Qed.

Lemma parse_array_open (s : string) :
  parse_array (String "[" (String dq s)) =
  match parse_chars s with
  | Some (x, s3) =>
      match parse_rest (String.length s3) s3 with
      | Some (xs, s4) => Some (x :: xs, s4)
      | None => None
      end
  | None => None
  end.
Proof. reflexivity. Qed.

Ltac norm_app :=
  repeat first [rewrite app_assoc | rewrite app_cons | rewrite app_nil].

Lemma parse_more_items (ids : list string) (fuel : nat) (rest : string) :
  length ids < fuel →
  parse_rest fuel (more_items ids +:+ String "]" rest) = Some (ids, rest).
Proof.
  revert fuel. induction ids as [|x ids IH]; intros [|fuel] Hfuel;
    cbn [length] in Hfuel; try lia.
  - reflexivity.
  - cbn [more_items]. unfold encode_str. norm_app.
    rewrite parse_rest_comma, parse_escape.
    rewrite IH by lia. reflexivity.
Qed.

Lemma length_more_items (ids : list string) (rest : string) :
  length ids < String.length (more_items ids +:+ String "]" rest).
Proof.
  induction ids as [|x ids IH]; cbn [more_items length].
  - rewrite app_nil. cbn [String.length]. lia.
  - unfold encode_str. norm_app. cbn [String.length].
    rewrite length_app. cbn [String.length]. lia.
Qed.

Theorem json_load_dump (ids : list string) : json_load (json_dump ids) = Some ids.
Proof.
  destruct ids as [|x ids]; [reflexivity|].
  unfold json_dump, json_load.
  rewrite join_items_encode. unfold encode_str. norm_app.
  rewrite parse_array_open, parse_escape.
  rewrite parse_more_items by apply length_more_items.
  reflexivity.
Qed.

(** *** The two decoders agree on the arrays of strings *)

Lemma push_some (c : ascii) (r : option (string * string)) (x rest : string) :
  push c r = Some (x, rest) → ∃ x', r = Some (x', rest) ∧ x = String c x'.
Proof. destruct r as [[x' rest']|]; [|done]. intros [= <- <-]. eauto. Qed.

Lemma skip_ws_length (s : string) : String.length (skip_ws s) ≤ String.length s.
Proof.
  induction s as [|c s IH]; [done|]. cbn. destruct (is_ws c); cbn; lia.
Qed.

Lemma parse_chars_scan (n : nat) (s x rest : string) :
  String.length s ≤ n →
  parse_chars s = Some (x, rest) →
  scan_string s = Some (text_of x, rest) ∧ String.length rest < String.length s.
Proof.
  revert s x rest. induction n as [|n IH]; intros [|c s1] x rest Hn; try done.
  { cbn in Hn. lia. }
  cbn [parse_chars scan_string]. cbn [String.length] in Hn |- *.
  destruct (Ascii.eqb c dq).
  { intros [= <- <-]. split; [done|lia]. }
  destruct (Ascii.eqb c backslash).
  - destruct s1 as [|e s2]; [done|]. cbn [String.length] in Hn |- *.
    destruct (Ascii.eqb e "u").
    + destruct s2 as [|h1 [|h2 [|h3 [|h4 s3]]]]; try done.
      cbn [String.length] in Hn |- *.
      destruct (hex_val h1), (hex_val h2), (hex_val h3), (hex_val h4); try done.
      case_match; [|done].
      intros (x' & Hx & ->)%push_some.
      apply IH in Hx as [-> ?]; [|lia]. split; [done|lia].
    + destruct (unescape e); [|done].
      intros (x' & Hx & ->)%push_some.
      apply IH in Hx as [-> ?]; [|lia]. split; [done|lia].
  - case_match; [done|].
    intros (x' & Hx & ->)%push_some.
    apply IH in Hx as [-> ?]; [|lia]. split; [done|lia].
Qed.

Lemma parse_items_eq (fuel : nat) (s : string) :
  parse_items (S fuel) s =
  match parse_value fuel s with
  | Some (v, s1) => after_value fuel v s1
  | None => None
  end.
Proof. reflexivity. Qed.

Lemma parse_value_string (fuel : nat) (s x rest : string) :
  parse_chars s = Some (x, rest) →
  parse_value (S fuel) (String dq s) = Some (Str (text_of x), rest).
Proof.
  intros H. apply (parse_chars_scan _ _ _ _ (le_n _)) in H as [H _].
  cbn [parse_value]. change (Ascii.eqb dq dq) with true. cbv iota.
  by rewrite H.
Qed.

Lemma parse_rest_items (f : nat) (s : string) (xs : list string) (s4 : string)
    (g : nat) (v : Value) :
  parse_rest f s = Some (xs, s4) →
  2 * String.length s ≤ g →
  after_value g v s = Some (v :: (Str ∘ text_of <$> xs), s4).
Proof.
  revert s xs s4 g v. induction f as [|f IH]; intros s xs s4 g v; [done|].
  cbn [parse_rest]. unfold after_value.
  pose proof (skip_ws_length s) as Hs.
  destruct (skip_ws s) as [|c s1]; [done|]. cbn [String.length] in Hs.
  destruct (Ascii.eqb c "]"); [by intros [= <- <-]|].
  destruct (Ascii.eqb c ","); [|done].
  pose proof (skip_ws_length s1) as Hs1.
  destruct (skip_ws s1) as [|q s2]; [done|]. cbn [String.length] in Hs1.
  destruct (Ascii.eqb q dq) eqn:Hq; [|done].
  apply Ascii.eqb_eq in Hq as ->.
  destruct (parse_chars s2) as [[x s3]|] eqn:Hx; [|done].
  destruct (parse_rest f s3) as [[xs' s4']|] eqn:Hrest; [|done].
  intros [= <- <-] Hg.
  pose proof (parse_chars_scan _ _ _ _ (le_n _) Hx) as [_ Hlen].
  destruct g as [|[|g]]; [lia..|].
  rewrite parse_items_eq, (parse_value_string _ _ _ _ Hx).
  rewrite (IH _ _ _ (S g) _ Hrest) by lia. done.
Qed.

Lemma narrow_text_of (x : string) : narrow (text_of x) = Some x.
Proof.
  unfold narrow, text_of.
  rewrite (mapM_fmap_Some id Some) by done. cbn.
  by rewrite String.string_of_list_ascii_of_string.
Qed.

Lemma gather_ids (ids : list string) :
  gather (as_id <$> (Str ∘ text_of <$> ids)) = Members ids.
Proof.
  unfold gather.
  assert (as_id <$> (Str ∘ text_of <$> ids) = Some <$> ids) as ->.
  { induction ids as [|x ids IH]; [done|]. cbn [fmap list_fmap].
    f_equal; [apply narrow_text_of|exact IH]. }
  assert (forallb (λ c : option string, bool_decide (is_Some c)) (Some <$> ids) = true)
    as ->.
  { induction ids as [|x ids IH]; [done|]. cbn. by rewrite IH. }
  f_equal. induction ids as [|x ids IH]; [done|]. cbn. by rewrite IH.
Qed.

Lemma as_set_ids (ids : list string) :
  as_set (Array (Str ∘ text_of <$> ids)) = Members ids.
Proof.
  unfold as_set.
  assert (forallb hashable (Str ∘ text_of <$> ids) = true) as ->.
  { induction ids as [|x ids IH]; [done|]. cbn. by rewrite IH. }
  apply gather_ids.
Qed.

(** Where [json_load] answers, [json.loads] returns the array of those
    strings, and [set] of it has them as members. *)
Lemma json_load_loads (s : string) (ids : list string) :
  json_load s = Some ids →
  loads s = Some (Array (Str ∘ text_of <$> ids)).
Proof.
  unfold json_load, parse_array, loads.
  pose proof (skip_ws_length s) as Hs.
  destruct (skip_ws s) as [|c s1]; [done|]. cbn [String.length] in Hs.
  destruct (Ascii.eqb c "[") eqn:Hc; [|done].
  apply Ascii.eqb_eq in Hc as ->. cbn [String.length].
  replace (2 * S (String.length s1) + 1) with (S (S (S (2 * String.length s1))))
    by lia.
  cbn [parse_value]. change (Ascii.eqb "[" dq) with false.
  change (Ascii.eqb "[" "[") with true. cbv iota.
  pose proof (skip_ws_length s1) as Hs1.
  destruct (skip_ws s1) as [|q s2]; [done|]. cbn [String.length] in Hs1.
  destruct (Ascii.eqb q "]") eqn:Hq.
  { intros H. destruct (skip_ws s2); by simplify_eq. }
  destruct (Ascii.eqb q dq) eqn:Hq'; [|done].
  apply Ascii.eqb_eq in Hq' as ->.
  destruct (parse_chars s2) as [[x s3]|] eqn:Hx; [|done].
  destruct (parse_rest (String.length s3) s3) as [[xs s4]|] eqn:Hrest; [|done].
  intros H.
  pose proof (parse_chars_scan _ _ _ _ (le_n _) Hx) as [_ Hlen].
  rewrite parse_items_eq, (parse_value_string _ _ _ _ Hx).
  rewrite (parse_rest_items _ _ _ _ _ _ Hrest) by lia.
  destruct (skip_ws s4); by simplify_eq.
Qed.

End JsonFacts.

(** ** Reasoning about statements *)

Lemma bind_eq {R A B} (m : M R A) (k : A → M R B) (st : State) :
  (m ≫= k) st =
  match m st with
  | (Normal a, st') => k a st'
  | (Return r, st') => (Return r, st')
  | (Raise e, st') => (Raise e, st')
  end.
Proof. reflexivity. Qed.

Lemma bind_normal {R A B} (m : M R A) (k : A → M R B) (st st' : State) (a : A) :
  m st = (Normal a, st') → (m ≫= k) st = k a st'.
Proof. intros H. by rewrite bind_eq, H. Qed.

Lemma bind_assoc {R A B C} (m : M R A) (k : A → M R B) (k' : B → M R C) (st : State) :
  ((m ≫= k) ≫= k') st = (m ≫= (λ a, k a ≫= k')) st.
Proof. rewrite !bind_eq. by destruct (m st) as [[a|r|e] st']. Qed.

Ltac unfold_monad :=
  unfold logging_info, logging_warning, logging_error, sleep, call,
    call_element, call_elements, call_attribute, call_flag in *;
  unfold mbind, M_bind, mret, M_ret, return_, try_except, try_except_class,
    def, invoke, get_state, modify, call_for in *.

(** *** Parts of the state a statement leaves alone *)

Section Keeps.
Context {X : Type} (f : State → X).

Lemma keeps_ret {R A} (a : A) : keeps f (mret (M:=M R) a).
Proof. done. Qed.

Lemma keeps_return {R A} (r : R) : keeps f (return_ (A:=A) r).
Proof. done. Qed.

Lemma keeps_get_state {R} : keeps f (get_state (R:=R)).
Proof. done. Qed.

Lemma keeps_modify {R} (g : State → State) :
  (∀ st, f (g st) = f st) → keeps f (modify (R:=R) g).
Proof. intros Hg st. apply Hg. Qed.

Lemma keeps_bind {R A B} (m : M R A) (k : A → M R B) :
  keeps f m → (∀ a, keeps f (k a)) → keeps f (m ≫= k).
Proof.
  intros Hm Hk st. rewrite bind_eq. specialize (Hm st).
  destruct (m st) as [[a|r|e] st']; cbn in *; try done.
  by rewrite Hk.
Qed.

Lemma keeps_try_except {R A} (body : M R A) (handler : Exn → M R A) :
  keeps f body → (∀ e, keeps f (handler e)) → keeps f (try_except body handler).
Proof.
  intros Hm Hk st. unfold try_except. specialize (Hm st).
  destruct (body st) as [[a|r|e] st']; cbn in *; try done.
  by rewrite Hk.
Qed.

Lemma keeps_try_except_class {R A} cls (body : M R A) (handler : Exn → M R A) :
  keeps f body → (∀ e, keeps f (handler e)) →
  keeps f (try_except_class cls body handler).
Proof.
  intros Hm Hk st. unfold try_except_class. specialize (Hm st).
  destruct (body st) as [[a|r|e] st']; cbn in *; try done.
  case_decide; cbn; [by rewrite Hk|done].
Qed.

Lemma keeps_def {R} (none : R) (body : M R unit) :
  keeps f body → keeps f (def none body).
Proof.
  intros Hm st. unfold def. specialize (Hm st).
  by destruct (body st) as [[a|r|e] st'].
Qed.

Lemma keeps_invoke {R R'} (g : State → Result R * State) :
  keeps f g → keeps f (invoke (R':=R') g).
Proof.
  intros Hg st. unfold invoke. specialize (Hg st).
  by destruct (g st) as [[r|e] st'].
Qed.

Lemma keeps_call_for {R A} env (answer : Env → list Event → Event → A) ev :
  (∀ st, f (record_event ev st) = f st) → keeps f (call_for (R:=R) env answer ev).
Proof. intros Hev st. unfold call_for. by case_match; cbn. Qed.

End Keeps.

Ltac solve_keeps_with side :=
  repeat first
    [ apply keeps_bind | apply keeps_try_except_class | apply keeps_try_except
    | apply keeps_def | apply keeps_invoke | apply keeps_ret | apply keeps_return
    | apply keeps_get_state
    | apply keeps_modify; solve [side]
    | apply keeps_call_for; solve [side]
    | progress intros
    | assumption
    | match goal with
      | |- keeps _ (match ?x with _ => _ end) => destruct x
      end ].

Ltac solve_keeps := solve_keeps_with ltac:(done).


(** ** The persisted set: [_save_deleted_log] and [_load_deleted_log] *)

Lemma save_written env st :
  env_fault env (trace st) (Open DELETED_LOG_FILE "w") = None →
  _save_deleted_log env st =
    (Returned (),
     set_disk (Some (Json.json_dump (elements (deleted_chat_ids st))))
       (record_event (Open DELETED_LOG_FILE "w") st)).
Proof. intros H. unfold _save_deleted_log. unfold_monad. by rewrite H. Qed.

Lemma save_refused env st e :
  env_fault env (trace st) (Open DELETED_LOG_FILE "w") = Some e →
  _save_deleted_log env st =
    (Returned (),
     record_log WARNING ("Could not save deleted chats log: " +:+ exn_str e)
       (record_event (Open DELETED_LOG_FILE "w") st)).
Proof. intros H. unfold _save_deleted_log. unfold_monad. by rewrite H. Qed.

Lemma save_keeps_deleted env : keeps deleted_chat_ids (_save_deleted_log env).
Proof. unfold _save_deleted_log. solve_keeps. Qed.

Lemma load_missing env st :
  disk st = None → _load_deleted_log env st = (Returned (), st).
Proof. intros H. unfold _load_deleted_log. unfold_monad. by rewrite H. Qed.

Lemma load_ids_array {R} text ids st :
  Json.json_load text = Some ids →
  load_ids (R:=R) text st = (Normal (list_to_set ids), st).
Proof.
  intros Hjson. unfold load_ids.
  by rewrite (JsonFacts.json_load_loads _ _ Hjson), JsonFacts.as_set_ids.
Qed.

Lemma load_read env st text ids :
  disk st = Some text →
  env_fault env (trace st) (Open DELETED_LOG_FILE "r") = None →
  Json.json_load text = Some ids →
  ∃ st', _load_deleted_log env st = (Returned (), st')
         ∧ deleted_chat_ids st' = list_to_set ids.
Proof.
  intros Hdisk Hopen Hjson. unfold _load_deleted_log. unfold_monad.
  rewrite Hdisk, Hopen, (load_ids_array _ _ _ Hjson). eauto.
Qed.

Lemma load_refused env st text e :
  disk st = Some text →
  env_fault env (trace st) (Open DELETED_LOG_FILE "r") = Some e →
  _load_deleted_log env st =
    (Returned (),
     record_log WARNING ("Could not load deleted chats log: " +:+ exn_str e)
       (record_event (Open DELETED_LOG_FILE "r") st)).
Proof.
  intros Hdisk Hopen. unfold _load_deleted_log. unfold_monad.
  by rewrite Hdisk, Hopen.
Qed.

Lemma load_undecoded env st text :
  disk st = Some text →
  env_fault env (trace st) (Open DELETED_LOG_FILE "r") = None →
  Json.loads text = None →
  _load_deleted_log env st =
    (Returned (),
     record_log WARNING "Could not load deleted chats log: JSONDecodeError"
       (record_event (Open DELETED_LOG_FILE "r") st)).
Proof.
  intros Hdisk Hopen Hjson. unfold _load_deleted_log, load_ids. unfold_monad.
  by rewrite Hdisk, Hopen, Hjson.
Qed.

(** C9. A set of identifiers written by [_save_deleted_log] is the set
    that [_load_deleted_log] reads back, whatever set the reader held
    before, when neither [open] fails: the file holds the JSON array of
    the set's elements, and reading it yields exactly that set. *)
Theorem save_load_roundtrip env (st : State) (ids0 : gset string) :
  env_fault env (trace st) (Open DELETED_LOG_FILE "w") = None →
  env_fault env (Open DELETED_LOG_FILE "w" :: trace st)
    (Open DELETED_LOG_FILE "r") = None →
  let saved := (_save_deleted_log env st).2 in
  let loaded := (_load_deleted_log env (set_deleted_chat_ids ids0 saved)).2 in
  disk saved = Some (Json.json_dump (elements (deleted_chat_ids st)))
  ∧ deleted_chat_ids loaded = deleted_chat_ids st.
Proof.
  intros Hw Hr saved loaded. subst saved loaded.
  rewrite (save_written _ _ Hw). cbn [snd]. split; [done|].
  edestruct (load_read env) as (st' & -> & Hst');
    [| |apply JsonFacts.json_load_dump|]; [done|exact Hr|].
  cbn [snd]. rewrite Hst'. apply list_to_set_elements_L.
Qed.

Lemma save_load_roundtrip_witness :
  deleted_chat_ids
    (_load_deleted_log (env_quiet [] [])
       (set_deleted_chat_ids ∅
          (_save_deleted_log (env_quiet [] [])
             (set_deleted_chat_ids {["abc"; "d-e"]} (fresh_state None))).2)).2
  = {["abc"; "d-e"]}.
Proof.
  refine (proj2 (save_load_roundtrip (env_quiet [] [])
                   (set_deleted_chat_ids {["abc"; "d-e"]} (fresh_state None)) ∅ _ _));
    reflexivity.
Defined.

(** C5 (as stated, refuted). With no file on disk [_load_deleted_log]
    logs nothing at all: no warning is among the records. *)
Lemma load_missing_logs_nothing :
  ¬ ∃ msg, (WARNING, msg) ∈
      log (_load_deleted_log (env_quiet [] []) (fresh_state None)).2.
Proof. intros [msg H]. vm_compute in H. by apply elem_of_nil in H. Qed.

(** C5 (amended). When the file is missing, or is there but cannot be
    opened for reading, or holds a text that [json.load] rejects as no
    JSON document, [__init__] does not raise and the set of deleted
    identifiers it starts with is empty; the file is left as it was; a
    missing file logs nothing, a file that cannot be read or decoded
    logs exactly one warning, [Could not load deleted chats log: ...]. *)
Theorem init_missing_or_invalid env (headless : bool) (disk0 : option string)
    (c : ascii) (p : string) :
  env_profile env = Some (String c p) →
  (disk0 = None
   ∨ ∃ text, disk0 = Some text
       ∧ (is_Some (env_fault env [] (Open DELETED_LOG_FILE "r"))
          ∨ Json.loads text = None)) →
  ∃ st, __init__ env headless disk0 = Returned st
        ∧ deleted_chat_ids st = ∅
        ∧ disk st = disk0
        ∧ (disk0 = None → log st = [])
        ∧ (∀ text, disk0 = Some text →
             ∃ why, log st =
               [(WARNING, "Could not load deleted chats log: " +:+ why)]).
Proof.
  intros Hp Hdisk. unfold __init__, get_firefox_profile. rewrite Hp.
  destruct Hdisk as [->|(text & -> & Hwhy)].
  - rewrite load_missing by done.
    eexists. split; [reflexivity|]. split; [done|]. split; [done|].
    split; [done|]. intros text [=].
  - destruct (env_fault env [] (Open DELETED_LOG_FILE "r")) as [e|] eqn:Hopen.
    + rewrite (load_refused _ _ text e) by done.
      eexists. split; [reflexivity|]. split; [done|]. split; [done|].
      split; [intros [=]|]. intros ? _. by exists (exn_str e).
    + destruct Hwhy as [[e [=]]|Hjson].
      rewrite (load_undecoded _ _ text) by done.
      eexists. split; [reflexivity|]. split; [done|]. split; [done|].
      split; [intros [=]|]. intros ? _. by exists "JSONDecodeError".
Qed.

Lemma init_missing_or_invalid_witness :
  (∃ st, __init__ (env_quiet [] []) true (Some "{not json") = Returned st
         ∧ deleted_chat_ids st = ∅
         ∧ log st = [(WARNING, "Could not load deleted chats log: JSONDecodeError")])
  ∧ (∃ st, __init__ env_unreadable true (Some (Json.json_dump ["abc"])) = Returned st
           ∧ deleted_chat_ids st = ∅
           ∧ log st = [(WARNING, "Could not load deleted chats log: "
                                   +:+ exn_str permission_denied)]).
Proof.
  split.
  - destruct (init_missing_or_invalid (env_quiet [] []) true (Some "{not json")
                "/" "home/user/.mozilla/firefox/x.default")
      as (st & Hst & Hset & _ & _ & Hlog); [reflexivity| |].
    { right. eexists. split; [reflexivity|]. right. by vm_compute. }
    exists st. split; [done|]. split; [done|].
    revert Hst. vm_compute. by intros [= <-].
  - destruct (init_missing_or_invalid env_unreadable true
                (Some (Json.json_dump ["abc"]))
                "/" "home/user/.mozilla/firefox/x.default")
      as (st & Hst & Hset & _ & _ & Hlog); [reflexivity| |].
    { right. eexists. split; [reflexivity|]. left. by eexists. }
    exists st. split; [done|]. split; [done|].
    revert Hst. vm_compute. by intros [= <-].
Defined.

(** ** [_get_chats] *)

Lemma get_chat_keeps_deleted env element chats :
  keeps deleted_chat_ids (get_chat env element chats).
Proof. unfold get_chat. solve_keeps. Qed.

Lemma get_chats_from_keeps_deleted env elements chats :
  keeps deleted_chat_ids (get_chats_from env elements chats).
Proof.
  revert chats. induction elements as [|element rest IH]; intros chats; cbn.
  - solve_keeps.
  - apply keeps_bind; [apply get_chat_keeps_deleted|done].
Qed.

Lemma get_chats_keeps_deleted env : keeps deleted_chat_ids (_get_chats env).
Proof.
  unfold _get_chats. solve_keeps. apply get_chats_from_keeps_deleted.
Qed.

(** One element adds at most one chat, whose identifier is not deleted. *)
Lemma get_chat_pending env element (chats : list Chat) st :
  ∃ chats', (get_chat env element chats st).1 = Normal chats'
    ∧ ∀ c, c ∈ chats' → c ∈ chats ∨ chat_id c ∉ deleted_chat_ids st.
Proof.
  unfold get_chat. unfold_monad.
  destruct (env_fault _ _ _); cbn; [by eauto|].
  destruct (is_chat_href _); cbn; [|by eauto].
  case_decide; cbn; [by eauto|].
  eexists. split; [done|]. intros c [Hc|Hc%list_elem_of_singleton]%elem_of_app.
  - by left.
  - right. by subst c.
Qed.

Lemma get_chats_from_pending env elements (chats : list Chat) st (D : gset string) :
  deleted_chat_ids st = D →
  (∀ c, c ∈ chats → chat_id c ∉ D) →
  ∃ chats', (get_chats_from env elements chats st).1 = Normal chats'
    ∧ ∀ c, c ∈ chats' → chat_id c ∉ D.
Proof.
  revert chats st. induction elements as [|element rest IH]; intros chats st HD Hchats.
  - cbn. eauto.
  - cbn [get_chats_from]. rewrite bind_eq.
    destruct (get_chat_pending env element chats st) as (chats1 & H1 & Hc1).
    pose proof (get_chat_keeps_deleted env element chats st) as Hk.
    destruct (get_chat env element chats st) as [r1 st1]. cbn in H1, Hk. subst r1.
    apply IH; [congruence|].
    intros c Hc. destruct (Hc1 c Hc) as [?|?]; [by auto|]. by rewrite <- HD.
Qed.

(** C1. [_get_chats] always returns a list, leaves the set of deleted
    identifiers as it was, and no chat of the list has an identifier
    that is in the set. *)
Theorem get_chats_excludes_deleted env (st : State) :
  ∃ chats st', _get_chats env st = (Returned chats, st')
    ∧ deleted_chat_ids st' = deleted_chat_ids st
    ∧ ∀ c, c ∈ chats → chat_id c ∉ deleted_chat_ids st.
Proof.
  pose proof (get_chats_keeps_deleted env st) as Hk.
  destruct (_get_chats env st) as [r st'] eqn:Hrun. cbn in Hk.
  assert (∃ chats, r = Returned chats
            ∧ ∀ c, c ∈ chats → chat_id c ∉ deleted_chat_ids st) as (chats & -> & Hc);
    [|by eauto].
  revert Hrun. unfold _get_chats. unfold_monad.
  destruct (env_fault _ _ _); cbn.
  { intros [= <- _]. exists []. split; [done|]. by intros c ?%elem_of_nil. }
  destruct (env_fault _ _ _); cbn.
  { intros [= <- _]. exists []. split; [done|]. by intros c ?%elem_of_nil. }
  match goal with
  | |- context [get_chats_from env ?els [] ?s] =>
      destruct (get_chats_from_pending env els [] s (deleted_chat_ids st))
        as (chats & Hrun & Hc);
      [done|by intros c ?%elem_of_nil|];
      destruct (get_chats_from env els [] s) as [r1 s1]
  end.
  cbn in Hrun. subst r1. intros [= <- _]. eauto.
Qed.

(** ** What [_delete_chat] leaves alone *)

Section DeleteChatKeeps.
Context {X : Type} (f : State → X) (env : Env).
Hypothesis Hev : ∀ ev st, ev ≠ Refresh → f (record_event ev st) = f st.
Hypothesis Hlog : ∀ lvl msg st, f (record_log lvl msg st) = f st.

Local Ltac side := first [done | by intros; apply Hlog | by intros; apply Hev].

Lemma find_delete_button_keeps : keeps f (_find_delete_button_in_menu env).
Proof. unfold _find_delete_button_in_menu. solve_keeps_with side. Qed.

Lemma step_1_keeps chat : keeps f (step_1_click_chat env chat).
Proof. unfold step_1_click_chat. solve_keeps_with side. Qed.

Lemma step_2_3_keeps chat : keeps f (step_2_3_locate_menu_button env chat).
Proof. unfold step_2_3_locate_menu_button. solve_keeps_with side. Qed.

Lemma find_dialog_keeps selectors : keeps f (find_dialog env selectors).
Proof.
  induction selectors as [|selector rest IH]; cbn [find_dialog];
    solve_keeps_with side.
Qed.

Lemma try_selectors_keeps selectors : keeps f (try_selectors env selectors).
Proof.
  induction selectors as [|selector rest IH]; cbn [try_selectors];
    solve_keeps_with side.
Qed.

Lemma confirm_attempts_keeps attempts : keeps f (confirm_attempts env attempts).
Proof.
  induction attempts as [|attempt rest IH]; cbn [confirm_attempts];
    solve_keeps_with side.
Qed.

Lemma verify_gone_keeps chat remaining : keeps f (verify_gone env chat remaining).
Proof.
  induction remaining as [|remaining IH]; cbn [verify_gone];
    solve_keeps_with side.
Qed.

End DeleteChatKeeps.

Lemma delete_chat_keeps_store env chat : keeps store (_delete_chat env chat).
Proof.
  unfold _delete_chat, delete_chat_body, on_error, on_fault, count_dark_mode_error,
    step_0_prepare, step_3_click_menu_button, step_4_click_delete,
    step_5_find_dialog, step_6_confirm, step_7_verify.
  solve_keeps;
    first [ by apply step_1_keeps | by apply step_2_3_keeps
          | by apply find_delete_button_keeps | by apply find_dialog_keeps
          | by apply confirm_attempts_keeps | by apply verify_gone_keeps ].
Qed.

Lemma get_chats_keeps_store env : keeps store (_get_chats env).
Proof.
  intros st. unfold store. f_equal; [apply get_chats_keeps_deleted|].
  revert st. change (keeps disk (_get_chats env)).
  unfold _get_chats. solve_keeps.
  match goal with |- keeps _ (get_chats_from _ ?els ?chats) =>
    generalize chats; induction els as [|el els IH]; intros chats0; cbn [get_chats_from]
  end.
  - solve_keeps.
  - apply keeps_bind; [unfold get_chat; solve_keeps|done].
Qed.

(** ** The main loop *)

(** What the body of [for chat in chats] does to the set and the file,
    by the result of [_delete_chat]. *)
Lemma delete_and_record_eq env chat st :
  delete_and_record env chat st =
  match _delete_chat env chat st with
  | (Returned true, st1) =>
      let st2 := set_deleted_chat_ids ({[chat_id chat]} ∪ deleted_chat_ids st1) st1 in
      (Normal (), record_log INFO ("Deleted chat " +:+ chat_id chat)
                    (_save_deleted_log env st2).2)
  | (Returned false, st1) =>
      (Normal (), record_log WARNING ("Failed to delete chat " +:+ chat_id chat) st1)
  | (Raised e, st1) => (Raise e, st1)
  end.
Proof.
  unfold delete_and_record. rewrite bind_eq. unfold invoke at 1.
  destruct (_delete_chat env chat st) as [[[|]|e] st1]; try done.
  cbn. rewrite !bind_eq. unfold modify at 1. unfold invoke.
  set (st2 := set_deleted_chat_ids _ st1).
  rewrite bind_eq. cbv beta.
  destruct (env_fault env (trace st2) (Open DELETED_LOG_FILE "w")) as [e|] eqn:Hw.
  - by rewrite (save_refused _ _ e Hw).
  - by rewrite (save_written _ _ Hw).
Qed.






(** When no pending link shows up, [_get_chats] returns the empty list. *)
Lemma get_chats_from_none env elements chats st (D : gset string) :
  (∀ h element,
      env_fault env h (GetAttribute element "href") = None →
      is_chat_href (env_attribute env h (GetAttribute element "href")) = true →
      PyStr.last_piece
        (PyStr.split "/" (default "" (env_attribute env h (GetAttribute element "href"))))
        ∈ D) →
  deleted_chat_ids st = D →
  (get_chats_from env elements chats st).1 = Normal chats.
Proof.
  intros Hall. revert st. induction elements as [|element rest IH]; intros st HD; [done|].
  cbn [get_chats_from]. rewrite bind_eq.
  pose proof (get_chat_keeps_deleted env element chats st) as Hk.
  assert ((get_chat env element chats st).1 = Normal chats) as H1.
  { unfold get_chat. unfold_monad.
    destruct (env_fault _ _ _) eqn:Hf; cbn; [done|].
    destruct (is_chat_href _) eqn:Hh; cbn; [|done].
    case_decide as Hin; cbn; [done|].
    destruct Hin. rewrite HD. by apply Hall. }
  destruct (get_chat env element chats st) as [r1 st1]. cbn in *. subst r1.
  apply IH. congruence.
Qed.

Lemma get_chats_none env st :
  no_pending_link env st → (_get_chats env st).1 = Returned [].
Proof.
  intros [[e He]|Hall]; unfold _get_chats; unfold_monad.
  - by rewrite He.
  - destruct (env_fault _ _ _); [done|].
    destruct (env_fault _ _ _); [done|]. cbn.
    match goal with
    | |- context [get_chats_from env ?els [] ?s] =>
        pose proof (get_chats_from_none env els [] s _ Hall eq_refl) as H1;
        destruct (get_chats_from env els [] s) as [r1 s1]
    end.
    cbn in H1. by subst r1.
Qed.

(** C8. When no pending link shows up within the time-out, [_get_chats]
    returns the empty list; and whenever [_get_chats] returns the empty
    list the main loop logs that no chats are left and stops there,
    making no further call. *)
Theorem no_pending_stops env (st : State) :
  (no_pending_link env st → (_get_chats env st).1 = Returned [])
  ∧ ((_get_chats env st).1 = Returned [] →
     ∀ fuel, main_loop env (S fuel) st =
               (Some (Normal ()),
                record_log INFO "No more chats to delete" (_get_chats env st).2)).
Proof.
  split; [apply get_chats_none|].
  intros Hnone fuel. cbn [main_loop]. unfold scan_and_delete.
  rewrite bind_eq. unfold invoke.
  destruct (_get_chats env st) as [r st1]. cbn in Hnone. by subst r.
Qed.

Lemma no_pending_stops_witness :
  main_loop (env_quiet [] []) 1 (fresh_state None) =
    (Some (Normal ()),
     record_log INFO "No more chats to delete"
       (_get_chats (env_quiet [] []) (fresh_state None)).2).
Proof.
  destruct (no_pending_stops (env_quiet [] []) (fresh_state None)) as [Hnone Hstop].
  apply Hstop, Hnone. right. intros h element _ Hhref. discriminate Hhref.
Defined.

(** ** [_delete_chat]: the handlers *)

Lemma delete_chat_eq env chat st :
  _delete_chat env chat st =
  match delete_chat_body env chat st with
  | (Normal _, st1) => (Returned false, st1)
  | (Return b, st1) => (Returned b, st1)
  | (Raise e, st1) => def false (on_error env chat e) st1
  end.
Proof.
  unfold _delete_chat, def, try_except.
  by destruct (delete_chat_body env chat st) as [[[]|b|e] st1].
Qed.

Lemma on_fault_unmarked env chat e st :
  PyStr.contains DARK_MODE_MARKER (exn_str e) = false →
  on_fault env chat e st =
    (Return false, record_log ERROR ("Unexpected error: " +:+ exn_str e) st).
Proof. intros H. unfold on_fault. by rewrite H. Qed.

Lemma on_fault_counted env chat e st :
  PyStr.contains DARK_MODE_MARKER (exn_str e) = true →
  dark_mode_error_count st + 1 < 5 →
  on_fault env chat e st =
    (Return false,
     record_log WARNING
       ("Dark mode error count for chat " +:+ chat_id chat +:+ ": "
          +:+ pretty (dark_mode_error_count st + 1))
       (set_dark_mode_error_count (dark_mode_error_count st + 1) st)).
Proof.
  intros H Hlt. unfold on_fault, count_dark_mode_error. rewrite H.
  unfold_monad. cbn. case_decide; [lia|done].
Qed.

Lemma on_fault_reload env chat e st :
  PyStr.contains DARK_MODE_MARKER (exn_str e) = true →
  5 ≤ dark_mode_error_count st + 1 →
  env_fault env (trace st) Refresh = None →
  ∃ st', on_fault env chat e st = (Return false, st')
    ∧ trace st' = Sleep 3 :: Refresh :: trace st
    ∧ dark_mode_error_count st' = 0
    ∧ current_error_chat_id st' = current_error_chat_id st
    ∧ store st' = store st.
Proof.
  intros H Hge Href. unfold on_fault, count_dark_mode_error. rewrite H.
  unfold_monad. cbn. case_decide; [|lia]. cbn. rewrite Href. eauto 10.
Qed.

(** With the reload answering, the handlers end in [return False]. *)
Lemma on_fault_returns env chat e st :
  (∀ h, env_fault env h Refresh = None) →
  (on_fault env chat e st).1 = Return false.
Proof.
  intros Href. unfold on_fault, count_dark_mode_error. unfold_monad.
  destruct (PyStr.contains _ _); cbn; [|done].
  case_decide; cbn; [|done]. by rewrite Href.
Qed.

(** The only exception that leaves [_delete_chat] is one raised by the
    reload of the page in the handler of the whole body. *)
Lemma delete_chat_returns env chat st :
  (∀ h, env_fault env h Refresh = None) →
  ∃ b, (_delete_chat env chat st).1 = Returned b.
Proof.
  intros Href. rewrite delete_chat_eq.
  destruct (delete_chat_body env chat st) as [[[]|b|e] st1]; [by eauto..|].
  unfold def, on_error. rewrite bind_eq. cbn.
  pose proof (on_fault_returns env chat e
                (record_log ERROR ("Error in deletion process for chat "
                   +:+ chat_id chat +:+ ": " +:+ exn_str e) st1) Href) as H.
  destruct (on_fault _ _ _ _) as [r st2]. cbn in H. subst r. by eauto.
Qed.

(** C7 (the failing run). The click on the chat link is intercepted by
    the dark-mode page in five consecutive calls, and the page cannot be
    reloaded: the first four calls return [False], the exception of the
    reload leaves the fifth. *)
Theorem reload_fault_leaves_delete_chat :
  let st k := delete_repeatedly env_reload_fails chat_abc k (fresh_state None) in
  (∀ k, k < 4 → (_delete_chat env_reload_fails chat_abc (st k)).1 = Returned false)
  ∧ (_delete_chat env_reload_fails chat_abc (st 4)).1 =
      Raised {| exn_class := OtherException;
                exn_str := "Message: Failed to decode response from marionette" |}.
Proof.
  split.
  - intros k Hk.
    destruct k as [|[|[|[|k]]]]; [by vm_compute..|lia].
  - by vm_compute.
Qed.

(** ** [_delete_chat]: from a point of the body on *)

Ltac split_body :=
  unfold before_step_7, before_step_6, before_delete_click, before_step_4,
    before_step_3, delete_chat_body in *;
  rewrite ?bind_eq in *;
  repeat (case_match; simplify_eq; rewrite ?bind_eq in *);
  try done.

Lemma body_from_step_1 env chat st st1 :
  step_0_prepare env chat st = (Normal (), st1) →
  delete_chat_body env chat st =
    (step_1_click_chat env chat;;
     menu_button ← step_2_3_locate_menu_button env chat;
     step_3_click_menu_button env chat menu_button;;
     step_4_click_delete env chat;;
     step_5_find_dialog env;;
     step_6_confirm env;;
     step_7_verify env chat) st1.
Proof. intros H. unfold delete_chat_body. by rewrite (bind_normal _ _ _ _ _ H). Qed.

Lemma body_from_step_3 env chat st menu_button st1 :
  before_step_3 env chat st = (Normal menu_button, st1) →
  delete_chat_body env chat st =
    (step_3_click_menu_button env chat menu_button;;
     step_4_click_delete env chat;;
     step_5_find_dialog env;;
     step_6_confirm env;;
     step_7_verify env chat) st1.
Proof. intros H. split_body. Qed.

Lemma body_from_step_4 env chat st st1 :
  before_step_4 env chat st = (Normal (), st1) →
  delete_chat_body env chat st =
    (step_4_click_delete env chat;;
     step_5_find_dialog env;;
     step_6_confirm env;;
     step_7_verify env chat) st1.
Proof. intros H. split_body. Qed.

Lemma body_from_step_6 env chat st st1 :
  before_step_6 env chat st = (Normal (), st1) →
  delete_chat_body env chat st = (step_6_confirm env;; step_7_verify env chat) st1.
Proof. intros H. split_body. Qed.

Lemma body_from_step_7 env chat st st1 :
  before_step_7 env chat st = (Normal (), st1) →
  delete_chat_body env chat st = step_7_verify env chat st1.
Proof. intros H. split_body. Qed.

(** ** Step 6: the confirmation button *)

Lemma record_events_app evs evs' st :
  record_events (evs ++ evs') st = record_events evs' (record_events evs st).
Proof. apply foldl_app. Qed.

Lemma trace_record_events evs st :
  trace (record_events evs st) = rev evs ++ trace st.
Proof.
  revert st. induction evs as [|ev evs IH]; intros st; [done|].
  change (record_events (ev :: evs) st) with (record_events evs (record_event ev st)).
  rewrite IH. cbn. by rewrite <- app_assoc.
Qed.

Lemma record_events_keeps {X} (f : State → X) evs st :
  (∀ ev st, f (record_event ev st) = f st) →
  f (record_events evs st) = f st.
Proof.
  intros Hf. revert st. induction evs as [|ev evs IH]; intros st; [done|].
  change (record_events (ev :: evs) st) with (record_events evs (record_event ev st)).
  by rewrite IH.
Qed.

Lemma try_selectors_absent env selectors st :
  button_absent env selectors →
  try_selectors env selectors st =
    (Normal false, record_events (FindElement Driver XPATH <$> selectors) st).
Proof.
  revert st. induction selectors as [|selector rest IH]; intros st Habsent; [done|].
  destruct (Habsent selector (trace st)) as (e & He & Hclass); [left|].
  cbn [try_selectors]. unfold try_except. rewrite bind_eq.
  unfold call_element, call_for. rewrite He.
  case_decide; [|done].
  rewrite IH; [done|]. intros s h Hs. apply Habsent. by right.
Qed.

Lemma confirm_attempts_absent env attempts st :
  button_absent env button_selectors →
  confirm_attempts env attempts st =
    (Normal false, record_events (attempts_events attempts) st).
Proof.
  intros Habsent. revert st.
  induction attempts as [|attempt rest IH]; intros st; [done|].
  cbn [confirm_attempts]. unfold attempts_events. cbn [mbind list_bind].
  fold (attempts_events rest).
  rewrite !record_events_app.
  rewrite bind_eq.
  case_decide.
  - change (record_events [Sleep 1] st) with (record_event (Sleep 1) st).
    unfold sleep, modify. cbv beta iota.
    rewrite bind_eq, try_selectors_absent by done. apply IH.
  - change (record_events [] st) with st.
    unfold mret, M_ret. cbv beta iota.
    rewrite bind_eq, try_selectors_absent by done. apply IH.
Qed.

Lemma step_6_absent env st :
  button_absent env button_selectors →
  env_fault env (rev absent_button_events ++ trace st) Refresh = None →
  ∃ st', step_6_confirm env st = (Return false, st')
    ∧ trace st' = Sleep 5 :: Refresh :: rev absent_button_events ++ trace st
    ∧ dark_mode_error_count st' = 0.
Proof.
  intros Habsent Href. unfold step_6_confirm.
  rewrite bind_eq, confirm_attempts_absent by done.
  fold absent_button_events.
  pose proof (trace_record_events absent_button_events st) as Htrace.
  pose proof (record_events_keeps dark_mode_error_count absent_button_events st
                (λ _ _, eq_refl)) as Hcount.
  destruct (record_events absent_button_events st) as [ids cur n opts d tr lg].
  cbn [trace] in Htrace. cbn [dark_mode_error_count] in Hcount. subst tr.
  remember (rev absent_button_events) as evs.
  unfold_monad. cbn. rewrite Href. eauto.
Qed.

(** The searches made when the button is absent: the four selectors in
    order, five times, one second apart. *)
Example absent_button_events_eq :
  absent_button_events =
    let searches := FindElement Driver XPATH <$> button_selectors in
    searches ++ [Sleep 1] ++ searches ++ [Sleep 1] ++ searches ++ [Sleep 1]
      ++ searches ++ [Sleep 1] ++ searches.
Proof. reflexivity. Qed.

(** C3. When the run reaches step 6 and no selector locates the
    confirmation button, [_delete_chat] searches with every selector, in
    order, in each of five attempts one second apart; only then does it
    reload the page (once), and it returns [False], the counter at 0. *)
Theorem absent_button_exhausts_attempts env (chat : Chat) (st st5 : State) :
  before_step_6 env chat st = (Normal (), st5) →
  button_absent env button_selectors →
  env_fault env (rev absent_button_events ++ trace st5) Refresh = None →
  ∃ st', _delete_chat env chat st = (Returned false, st')
    ∧ trace st' = Sleep 5 :: Refresh :: rev absent_button_events ++ trace st5
    ∧ reloads st' = reloads st5 + 1
    ∧ dark_mode_error_count st' = 0.
Proof.
  intros Hreach Habsent Href.
  destruct (step_6_absent env st5 Habsent Href) as (st' & Hrun & Htrace & Hcount).
  exists st'. rewrite delete_chat_eq, (body_from_step_6 _ _ _ _ Hreach).
  rewrite bind_eq, Hrun. split; [done|]. split; [done|]. split; [|done].
  unfold reloads. rewrite Htrace.
  rewrite filter_cons_False, filter_cons_True, filter_app by done.
  assert (filter (λ ev, ev = Refresh) (rev absent_button_events) = []) as ->
    by (by vm_compute).
  cbn. lia.
Qed.

Lemma absent_button_exhausts_attempts_witness :
  ∃ st', _delete_chat env_no_button chat_abc (fresh_state None) = (Returned false, st')
    ∧ reloads st' = 1
    ∧ dark_mode_error_count st' = 0.
Proof.
  destruct (absent_button_exhausts_attempts env_no_button chat_abc (fresh_state None)
              (before_step_6 env_no_button chat_abc (fresh_state None)).2)
    as (st' & Hrun & Htrace & Hreloads & Hcount).
  - by vm_compute.
  - intros selector h _. eexists. split; reflexivity.
  - reflexivity.
  - exists st'. split; [done|]. split; [|done]. rewrite Hreloads. by vm_compute.
Defined.

(** ** Step 7: the only [return True] *)

Section NeverTrue.
Context (env : Env).

Lemma never_true_ret {A} (a : A) : never_returns_true (mret a).
Proof. done. Qed.

Lemma never_true_return_false {A} : never_returns_true (return_ (A:=A) false).
Proof. done. Qed.

Lemma never_true_get_state : never_returns_true get_state.
Proof. done. Qed.

Lemma never_true_modify g : never_returns_true (modify g).
Proof. done. Qed.

Lemma never_true_call_for {A} (answer : Env → list Event → Event → A) ev :
  never_returns_true (call_for env answer ev).
Proof. intros st. unfold call_for. by case_match. Qed.

Lemma never_true_invoke {R} (g : State → Result R * State) :
  never_returns_true (invoke g).
Proof. intros st. unfold invoke. by destruct (g st) as [[r|e] st']. Qed.

Lemma never_true_bind {A B} (m : M bool A) (k : A → M bool B) :
  never_returns_true m → (∀ a, never_returns_true (k a)) →
  never_returns_true (m ≫= k).
Proof.
  intros Hm Hk st. rewrite bind_eq. specialize (Hm st).
  destruct (m st) as [[a|r|e] st']; cbn in *;
    [apply Hk|intros [= ->]; by destruct Hm|congruence].
Qed.

Lemma never_true_try_except {A} (body : M bool A) handler :
  never_returns_true body → (∀ e, never_returns_true (handler e)) →
  never_returns_true (try_except body handler).
Proof.
  intros Hm Hk st. unfold try_except. specialize (Hm st).
  destruct (body st) as [[a|r|e] st']; cbn in *; [congruence|done|apply Hk].
Qed.

Lemma never_true_try_except_class {A} cls (body : M bool A) handler :
  never_returns_true body → (∀ e, never_returns_true (handler e)) →
  never_returns_true (try_except_class cls body handler).
Proof.
  intros Hm Hk st. unfold try_except_class. specialize (Hm st).
  destruct (body st) as [[a|r|e] st']; cbn in *; [congruence|done|].
  case_decide; [apply Hk|cbn; congruence].
Qed.

(** A statement that never returns [True] passes the question on to
    what follows it. *)
Lemma bind_returns_true {A B} (m : M bool A) (k : A → M bool B) st st' :
  never_returns_true m →
  (m ≫= k) st = (Return true, st') →
  ∃ a st1, m st = (Normal a, st1) ∧ k a st1 = (Return true, st').
Proof.
  intros Hm. rewrite bind_eq. specialize (Hm st).
  destruct (m st) as [[a|[|]|e] st1]; cbn in *; intros H; simplify_eq; eauto.
Qed.

End NeverTrue.

Ltac solve_never_true :=
  repeat first
    [ apply never_true_bind | apply never_true_try_except_class
    | apply never_true_try_except | apply never_true_ret
    | apply never_true_return_false | apply never_true_get_state
    | apply never_true_modify | apply never_true_call_for
    | apply never_true_invoke
    | progress intros
    | assumption
    | match goal with
      | |- never_returns_true (match ?x with _ => _ end) => destruct x
      end ].

Section StepsNeverTrue.
Context (env : Env).

Lemma on_error_never_true chat e : never_returns_true (on_error env chat e).
Proof. unfold on_error, on_fault, count_dark_mode_error. solve_never_true. Qed.

Lemma step_0_never_true chat : never_returns_true (step_0_prepare env chat).
Proof. unfold step_0_prepare. solve_never_true. Qed.

Lemma step_1_never_true chat : never_returns_true (step_1_click_chat env chat).
Proof. unfold step_1_click_chat. solve_never_true. Qed.

Lemma step_2_3_never_true chat :
  never_returns_true (step_2_3_locate_menu_button env chat).
Proof. unfold step_2_3_locate_menu_button. solve_never_true. Qed.

Lemma step_3_never_true chat menu_button :
  never_returns_true (step_3_click_menu_button env chat menu_button).
Proof.
  unfold step_3_click_menu_button, on_fault, count_dark_mode_error.
  solve_never_true.
Qed.

Lemma step_4_never_true chat : never_returns_true (step_4_click_delete env chat).
Proof. unfold step_4_click_delete. solve_never_true. Qed.

Lemma find_dialog_never_true selectors :
  never_returns_true (find_dialog env selectors).
Proof.
  induction selectors as [|selector rest IH]; cbn [find_dialog]; solve_never_true.
Qed.

Lemma step_5_never_true : never_returns_true (step_5_find_dialog env).
Proof.
  unfold step_5_find_dialog.
  apply never_true_bind; [apply find_dialog_never_true|]. solve_never_true.
Qed.

Lemma try_selectors_never_true selectors :
  never_returns_true (try_selectors env selectors).
Proof.
  induction selectors as [|selector rest IH]; cbn [try_selectors]; solve_never_true.
Qed.

Lemma confirm_attempts_never_true attempts :
  never_returns_true (confirm_attempts env attempts).
Proof.
  induction attempts as [|attempt rest IH]; cbn [confirm_attempts].
  - solve_never_true.
  - apply never_true_bind; [solve_never_true|]. intros _.
    apply never_true_bind; [apply try_selectors_never_true|]. solve_never_true.
Qed.

Lemma step_6_never_true : never_returns_true (step_6_confirm env).
Proof.
  unfold step_6_confirm.
  apply never_true_bind; [apply confirm_attempts_never_true|]. solve_never_true.
Qed.

(** The poll returns [True] only from the handler of
    [NoSuchElementException], right after the search that raised it. *)
Lemma verify_gone_true chat remaining st st' :
  verify_gone env chat remaining st = (Return true, st') →
  link_seen_gone env chat st'.
Proof.
  revert st. induction remaining as [|remaining IH]; intros st; [done|].
  cbn [verify_gone]. rewrite bind_eq.
  unfold try_except_class at 1. rewrite bind_eq.
  unfold call_element, call_for. fold (link_poll chat).
  destruct (env_fault env (trace st) (link_poll chat)) as [e|] eqn:Hpoll.
  - case_decide as Hclass; [|done].
    unfold_monad. cbn. intros [= <-]. by exists (trace st), e.
  - unfold sleep, modify. cbv beta iota. apply IH.
Qed.

Lemma step_7_true chat st st' :
  step_7_verify env chat st = (Return true, st') → link_seen_gone env chat st'.
Proof.
  unfold step_7_verify. rewrite bind_eq. unfold sleep at 1, modify at 1.
  cbv beta iota. rewrite bind_eq.
  destruct (verify_gone env chat 3 _) as [[[]|[|]|e] st1] eqn:Hpoll; try done.
  intros [= <-]. by eapply verify_gone_true.
Qed.

Lemma body_true chat st st' :
  delete_chat_body env chat st = (Return true, st') → link_seen_gone env chat st'.
Proof.
  unfold delete_chat_body. intros H.
  apply bind_returns_true in H as ([] & s0 & _ & H); [|apply step_0_never_true].
  apply bind_returns_true in H as ([] & s1 & _ & H); [|apply step_1_never_true].
  apply bind_returns_true in H as (mb & s2 & _ & H); [|apply step_2_3_never_true].
  apply bind_returns_true in H as ([] & s3 & _ & H); [|apply step_3_never_true].
  apply bind_returns_true in H as ([] & s4 & _ & H); [|apply step_4_never_true].
  apply bind_returns_true in H as ([] & s5 & _ & H); [|apply step_5_never_true].
  apply bind_returns_true in H as ([] & s6 & _ & H); [|apply step_6_never_true].
  by eapply step_7_true.
Qed.

End StepsNeverTrue.

(** All three polls find the link: step 7 gives up. *)
Lemma step_7_still_there env chat st :
  (∀ h, env_fault env h (link_poll chat) = None) →
  step_7_verify env chat st =
    (Return false,
     record_log WARNING "Chat still exists after deletion attempt"
       (record_events
          [Sleep 3; link_poll chat; Sleep 1; link_poll chat; Sleep 1;
           link_poll chat; Sleep 1] st)).
Proof.
  intros Hpoll. unfold step_7_verify. cbn [verify_gone].
  unfold try_except_class, call_element, call_for. fold (link_poll chat).
  unfold_monad. cbn. by repeat (rewrite Hpoll; cbn).
Qed.

(** C4. [_delete_chat] returns [True] only when the poll of step 7 has
    just searched for the chat's link and the search raised
    [NoSuchElementException]; and when the run reaches step 7 and the
    link is found at each of the three polls, it returns [False]. *)
Theorem true_only_when_link_gone env (chat : Chat) (st : State) :
  (∀ st', _delete_chat env chat st = (Returned true, st') →
          link_seen_gone env chat st')
  ∧ (∀ st6, before_step_7 env chat st = (Normal (), st6) →
            (∀ h, env_fault env h (link_poll chat) = None) →
            _delete_chat env chat st =
              (Returned false,
               record_log WARNING "Chat still exists after deletion attempt"
                 (record_events
                    [Sleep 3; link_poll chat; Sleep 1; link_poll chat; Sleep 1;
                     link_poll chat; Sleep 1] st6))).
Proof.
  split.
  - intros st'. rewrite delete_chat_eq.
    destruct (delete_chat_body env chat st) as [[[]|b|e] st1] eqn:Hbody.
    + done.
    + intros [= -> <-]. by eapply body_true.
    + unfold def. pose proof (on_error_never_true env chat e st1) as Hh.
      by destruct (on_error env chat e st1) as [[[]|[|]|e'] st2].
  - intros st6 Hreach Hpoll.
    rewrite delete_chat_eq, (body_from_step_7 _ _ _ _ Hreach).
    by rewrite step_7_still_there.
Qed.

Lemma true_only_when_link_gone_witness :
  link_seen_gone env_deleted chat_abc
    (_delete_chat env_deleted chat_abc (fresh_state None)).2
  ∧ (_delete_chat (env_quiet [] []) chat_abc (fresh_state None)).1 = Returned false.
Proof.
  split.
  - apply (proj1 (true_only_when_link_gone env_deleted chat_abc (fresh_state None))).
    by vm_compute.
  - rewrite (proj2 (true_only_when_link_gone (env_quiet [] []) chat_abc
                      (fresh_state None))
               (before_step_7 (env_quiet [] []) chat_abc (fresh_state None)).2);
      [done|by vm_compute|done].
Defined.

(** ** The counter of dark-mode faults *)

Lemma reloads_record_event ev st :
  ev ≠ Refresh → reloads (record_event ev st) = reloads st.
Proof.
  intros Hev. unfold reloads, record_event. cbn [trace].
  by rewrite filter_cons_False.
Qed.

Lemma counters_record_event ev st :
  ev ≠ Refresh → counters (record_event ev st) = counters st.
Proof. intros Hev. unfold counters. by rewrite reloads_record_event. Qed.

Lemma step_0_normal env chat st st1 :
  step_0_prepare env chat st = (Normal (), st1) →
  counters st1 = (Some (chat_id chat), tracked_count chat st, reloads st).
Proof.
  unfold step_0_prepare, tracked_count. unfold_monad.
  destruct (env_fault _ _ _); [done|]. cbn.
  repeat case_decide; try done; intros [= <-]; unfold counters, reloads; cbn;
    case_decide; try done; by repeat f_equal.
Qed.

Lemma before_step_3_normal env chat st menu_button st1 :
  before_step_3 env chat st = (Normal menu_button, st1) →
  counters st1 = (Some (chat_id chat), tracked_count chat st, reloads st).
Proof.
  unfold before_step_3. rewrite bind_eq.
  destruct (step_0_prepare env chat st) as [[[]|r|e] s0] eqn:H0; try done.
  apply step_0_normal in H0. rewrite bind_eq.
  pose proof (step_1_keeps counters env counters_record_event chat s0) as H1.
  destruct (step_1_click_chat env chat s0) as [[[]|r|e] s1]; try done.
  pose proof (step_2_3_keeps counters env counters_record_event (λ _ _ _, eq_refl)
                chat s1) as H2.
  destruct (step_2_3_locate_menu_button env chat s1) as [r2 s2].
  intros [= -> ->]. cbn in H1, H2. congruence.
Qed.

(** One call in which the click on the three-dot button is intercepted
    by the dark-mode page. *)
Lemma options_fault_counted env chat st e :
  options_click_intercepted env chat st e →
  PyStr.contains DARK_MODE_MARKER (exn_str e) = true →
  (∀ h, env_fault env h Refresh = None) →
  ∃ st', _delete_chat env chat st = (Returned false, st')
    ∧ current_error_chat_id st' = Some (chat_id chat)
    ∧ (tracked_count chat st + 1 < 5 →
       dark_mode_error_count st' = tracked_count chat st + 1
       ∧ reloads st' = reloads st)
    ∧ (5 ≤ tracked_count chat st + 1 →
       dark_mode_error_count st' = 0 ∧ reloads st' = reloads st + 1).
Proof.
  intros (menu_button & st1 & Hreach & Hfault & Hclass) Hmark Href.
  pose proof (before_step_3_normal _ _ _ _ _ Hreach) as Hc.
  unfold counters in Hc. injection Hc as Hcur Hcount Hrel.
  rewrite delete_chat_eq, (body_from_step_3 _ _ _ _ _ Hreach).
  rewrite bind_eq. unfold step_3_click_menu_button, try_except_class.
  rewrite bind_eq. unfold call, call_for. fold (options_click menu_button).
  rewrite Hfault. case_decide; [|done].
  set (st2 := record_event (options_click menu_button) st1).
  assert (current_error_chat_id st2 = current_error_chat_id st1) as Hcur2 by done.
  assert (dark_mode_error_count st2 = dark_mode_error_count st1) as Hcount2 by done.
  assert (reloads st2 = reloads st1) as Hrel2 by (by apply reloads_record_event).
  destruct (decide (dark_mode_error_count st2 + 1 < 5)) as [Hlt|Hge].
  - rewrite on_fault_counted by done. eexists. split; [done|].
    split; [exact (eq_trans Hcur2 Hcur)|]. split; [|lia].
    intros _. split; [cbn; lia|].
    transitivity (reloads st2); [reflexivity|congruence].
  - destruct (on_fault_reload env chat e st2) as (st' & -> & Htrace & Hzero & Hcur' & _);
      [done|lia|apply Href|].
    exists st'. split; [done|]. split; [congruence|]. split; [lia|].
    intros _. split; [done|].
    assert (reloads st' = reloads st2 + 1) as ->; [|lia].
    unfold reloads. rewrite Htrace.
    rewrite filter_cons_False, filter_cons_True by done. cbn [length]. lia.
Qed.

(** C2 (as stated, refuted). Five consecutive calls in each of which the
    click on the three-dot button raises
    [ElementClickInterceptedException], the message naming an overlay
    that is not the dark-mode page: the page is never reloaded. *)
Lemma unmarked_faults_never_reload :
  let env := env_options_intercepted OBSCURED_BY_DIV in
  let st k := delete_repeatedly env chat_abc k (fresh_state None) in
  ¬ ((∀ k, k < 5 → ∃ e, options_click_intercepted env chat_abc (st k) e) →
     reloads (st 5) = reloads (st 0) + 1).
Proof.
  intros env st Hclaim.
  assert (reloads (st 5) = reloads (st 0) + 1) as Hone; [|by vm_compute in Hone].
  apply Hclaim. intros k Hk. exists (intercepted OBSCURED_BY_DIV).
  destruct k as [|[|[|[|[|k]]]]]; [| | | | |lia];
    (eexists _, _; split; [by vm_compute|split; reflexivity]).
Qed.

(** C2 (amended). Five consecutive calls for the same chat, starting
    with no fault counted for it, in each of which the click on the
    three-dot button raises [ElementClickInterceptedException] with the
    dark-mode marker in its message, the reload of the page not
    failing: every call returns [False]; after the first four the
    counter is 1, 2, 3, 4 and the page has not been reloaded; the fifth
    reloads the page exactly once and resets the counter to 0. *)
Theorem five_dark_faults_one_reload env (chat : Chat) (st : State) :
  (current_error_chat_id st ≠ Some (chat_id chat) ∨ dark_mode_error_count st = 0) →
  (∀ k, k < 5 →
     ∃ e, options_click_intercepted env chat (delete_repeatedly env chat k st) e
          ∧ PyStr.contains DARK_MODE_MARKER (exn_str e) = true) →
  (∀ h, env_fault env h Refresh = None) →
  (∀ k, k < 5 →
     (_delete_chat env chat (delete_repeatedly env chat k st)).1 = Returned false)
  ∧ (∀ k, 1 ≤ k < 5 →
       dark_mode_error_count (delete_repeatedly env chat k st) = k
       ∧ reloads (delete_repeatedly env chat k st) = reloads st)
  ∧ dark_mode_error_count (delete_repeatedly env chat 5 st) = 0
  ∧ reloads (delete_repeatedly env chat 5 st) = reloads st + 1.
Proof.
  intros Hfresh Hfaults Href.
  assert (tracked_count chat st = 0) as Hstart.
  { unfold tracked_count. case_decide; [|done]. by destruct Hfresh. }
  assert (∀ k, k < 5 →
            tracked_count chat (delete_repeatedly env chat k st) = k
            ∧ reloads (delete_repeatedly env chat k st) = reloads st
            ∧ (1 ≤ k → dark_mode_error_count (delete_repeatedly env chat k st) = k))
    as Hinv.
  { induction k as [|k IH]; intros Hk; [by (split; [|split; [|lia]])|].
    destruct IH as (Htr & Hrel & _); [lia|].
    destruct (Hfaults k) as (e & Hint & Hmark); [lia|].
    destruct (options_fault_counted env chat _ e Hint Hmark Href)
      as (st' & Hrun & Hcur & Hlow & _).
    cbn [delete_repeatedly]. rewrite Hrun. cbn [snd].
    destruct Hlow as [Hcount Hrel']; [lia|].
    unfold tracked_count. rewrite Hcur. case_decide; [|done].
    split; [lia|]. split; [congruence|]. intros _. lia. }
  split; [|split].
  - intros k Hk. destruct (Hfaults k Hk) as (e & Hint & Hmark).
    destruct (options_fault_counted env chat _ e Hint Hmark Href) as (st' & -> & _).
    done.
  - intros k [Hk1 Hk5]. destruct (Hinv k Hk5) as (_ & Hrel & Hcount). auto.
  - destruct (Hinv 4) as (Htr & Hrel & _); [lia|].
    destruct (Hfaults 4) as (e & Hint & Hmark); [lia|].
    destruct (options_fault_counted env chat _ e Hint Hmark Href)
      as (st' & Hrun & _ & _ & Hhigh).
    change (delete_repeatedly env chat 5 st)
      with (_delete_chat env chat (delete_repeatedly env chat 4 st)).2.
    rewrite Hrun. cbn [snd]. destruct Hhigh as [-> ->]; [lia|]. by rewrite Hrel.
Qed.

Lemma five_dark_faults_one_reload_witness :
  let env := env_options_intercepted OBSCURED_BY_DARK_HTML in
  dark_mode_error_count (delete_repeatedly env chat_abc 5 (fresh_state None)) = 0
  ∧ reloads (delete_repeatedly env chat_abc 5 (fresh_state None)) = 1.
Proof.
  intros env.
  refine (proj2 (proj2 (five_dark_faults_one_reload env chat_abc (fresh_state None) _ _ _))).
  - by left.
  - intros k Hk. exists (intercepted OBSCURED_BY_DARK_HTML).
    split; [|by vm_compute].
    destruct k as [|[|[|[|[|k]]]]]; [| | | | |lia];
      (eexists _, _; split; [by vm_compute|split; reflexivity]).
  - reflexivity.
Defined.

(** ** Intercepted clicks *)

Lemma body_from_delete_click env chat st button st1 :
  before_delete_click env chat st = (Normal (Some button), st1) →
  delete_chat_body env chat st =
    ((call env (Click button);; sleep 1);;
     step_5_find_dialog env;;
     step_6_confirm env;;
     step_7_verify env chat) st1.
Proof.
  unfold before_delete_click. rewrite bind_eq.
  destruct (before_step_4 env chat st) as [[[]|r|e] s] eqn:H4; try done.
  intros H. rewrite (body_from_step_4 _ _ _ _ H4).
  rewrite bind_eq. unfold step_4_click_delete. rewrite bind_eq, H.
  by rewrite (bind_eq (_ ;; _)).
Qed.

(** What the handler of the whole body does with a fault that does not
    call for a reload. *)
Lemma on_error_unmarked env chat e st :
  PyStr.contains DARK_MODE_MARKER (exn_str e) = false →
  ∃ st', def false (on_error env chat e) st = (Returned false, st')
    ∧ trace st' = trace st
    ∧ dark_mode_error_count st' = dark_mode_error_count st.
Proof.
  intros Hmark. unfold def, on_error. rewrite bind_eq.
  unfold logging_error at 1, modify. cbv beta iota.
  rewrite on_fault_unmarked by done. eauto.
Qed.

Lemma on_error_counted env chat e st :
  PyStr.contains DARK_MODE_MARKER (exn_str e) = true →
  dark_mode_error_count st + 1 < 5 →
  ∃ st', def false (on_error env chat e) st = (Returned false, st')
    ∧ trace st' = trace st
    ∧ dark_mode_error_count st' = dark_mode_error_count st + 1.
Proof.
  intros Hmark Hlt. unfold def, on_error. rewrite bind_eq.
  unfold logging_error at 1, modify. cbv beta iota.
  rewrite on_fault_counted by done. eauto.
Qed.

(** Where a click outside the confirmation loop raises [e], the call
    ends in a handler, run in the state right after the click: the
    handler of the options click, when it returns, or the handler of the
    whole body. *)
Lemma click_fault_handled env chat st st1 ev e :
  reaches_click env chat st st1 ev →
  env_fault env (trace st1) ev = Some e →
  exn_class e = ElementClickInterceptedException →
  (∀ st2, on_fault env chat e (record_event ev st1) = (Return false, st2) →
          _delete_chat env chat st = (Returned false, st2))
  ∨ _delete_chat env chat st =
      def false (on_error env chat e) (record_event ev st1).
Proof.
  intros Hreach Hfault Hclass. rewrite delete_chat_eq.
  destruct Hreach as [st1 Hreach|menu_button st1 Hreach|button st1 Hreach].
  - right. rewrite (body_from_step_1 _ _ _ _ Hreach).
    unfold step_1_click_chat. rewrite !bind_eq.
    unfold call, call_for. by rewrite Hfault.
  - left. intros st2 Hhandler. rewrite (body_from_step_3 _ _ _ _ _ Hreach).
    rewrite bind_eq. unfold step_3_click_menu_button, try_except_class.
    rewrite bind_eq. unfold call, call_for. fold (options_click menu_button).
    rewrite Hfault. case_decide; [|done]. by rewrite Hhandler.
  - right. rewrite (body_from_delete_click _ _ _ _ _ Hreach).
    rewrite !bind_eq. unfold call, call_for. by rewrite Hfault.
Qed.

(** C10 (as stated, refuted). The first click on the button of the
    confirmation dialog raises [ElementClickInterceptedException], its
    message without the dark-mode marker; [_delete_chat] goes on to the
    next selector and returns [True]. *)
Lemma intercepted_confirm_click_goes_on :
  let r := _delete_chat env_confirm_intercepted chat_abc (fresh_state None) in
  (∃ h later e,
     trace r.2 = later ++ Click 5 :: h
     ∧ env_fault env_confirm_intercepted h (Click 5) = Some e
     ∧ exn_class e = ElementClickInterceptedException
     ∧ PyStr.contains DARK_MODE_MARKER (exn_str e) = false
     ∧ later ≠ [])
  ∧ r.1 = Returned true.
Proof.
  split; [|by vm_compute].
  eexists _, [_; _; _; _], (intercepted OBSCURED_BY_DIV).
  split; [by vm_compute|]. split; [by vm_compute|]. by vm_compute.
Qed.

(** C10 (amended). A click on the chat link, on the three-dot button or
    on the Delete item of the menu that raises
    [ElementClickInterceptedException]: without the dark-mode marker in
    the message, [_delete_chat] makes no further call (so no reload),
    returns [False] and leaves the counter as it was; with the marker,
    and below the fifth fault, it does the same but adds one to the
    counter. *)
Theorem intercepted_click_outside_dialog env (chat : Chat) (st st1 : State)
    (ev : Event) (e : Exn) :
  reaches_click env chat st st1 ev →
  env_fault env (trace st1) ev = Some e →
  exn_class e = ElementClickInterceptedException →
  (PyStr.contains DARK_MODE_MARKER (exn_str e) = false →
   ∃ st', _delete_chat env chat st = (Returned false, st')
     ∧ trace st' = ev :: trace st1
     ∧ dark_mode_error_count st' = dark_mode_error_count st1)
  ∧ (PyStr.contains DARK_MODE_MARKER (exn_str e) = true →
     dark_mode_error_count st1 + 1 < 5 →
     ∃ st', _delete_chat env chat st = (Returned false, st')
       ∧ trace st' = ev :: trace st1
       ∧ dark_mode_error_count st' = dark_mode_error_count st1 + 1).
Proof.
  intros Hreach Hfault Hclass.
  destruct (click_fault_handled _ _ _ _ _ _ Hreach Hfault Hclass) as [Hinner | ->].
  - split.
    + intros Hmark. eexists. split; [apply Hinner, on_fault_unmarked, Hmark|done].
    + intros Hmark Hlt.
      eexists. split; [by apply Hinner, on_fault_counted|done].
  - split.
    + intros Hmark.
      destruct (on_error_unmarked env chat e (record_event ev st1) Hmark)
        as (st' & Hrun & Htrace & Hcount).
      by exists st'.
    + intros Hmark Hlt.
      destruct (on_error_counted env chat e (record_event ev st1) Hmark Hlt)
        as (st' & Hrun & Htrace & Hcount).
      by exists st'.
Qed.

Lemma intercepted_click_outside_dialog_witness :
  (∃ st', _delete_chat (env_options_intercepted OBSCURED_BY_DIV) chat_abc
            (fresh_state None) = (Returned false, st')
     ∧ dark_mode_error_count st' = 0)
  ∧ (∃ st', _delete_chat (env_options_intercepted OBSCURED_BY_DARK_HTML) chat_abc
              (fresh_state None) = (Returned false, st')
       ∧ dark_mode_error_count st' = 1).
Proof.
  split.
  - set (env := env_options_intercepted OBSCURED_BY_DIV).
    assert (reaches_click env chat_abc (fresh_state None)
              (before_step_3 env chat_abc (fresh_state None)).2 (options_click 3))
      as Hreach by (apply reaches_options_button; by vm_compute).
    assert (PyStr.contains DARK_MODE_MARKER OBSCURED_BY_DIV = false)
      as Hmark by (by vm_compute).
    destruct (proj1 (intercepted_click_outside_dialog env chat_abc (fresh_state None)
                       _ _ (intercepted OBSCURED_BY_DIV) Hreach eq_refl eq_refl) Hmark)
      as (st' & Hrun & _ & Hcount).
    exists st'. split; [done|]. by rewrite Hcount.
  - set (env := env_options_intercepted OBSCURED_BY_DARK_HTML).
    assert (reaches_click env chat_abc (fresh_state None)
              (before_step_3 env chat_abc (fresh_state None)).2 (options_click 3))
      as Hreach by (apply reaches_options_button; by vm_compute).
    assert (PyStr.contains DARK_MODE_MARKER OBSCURED_BY_DARK_HTML = true)
      as Hmark by (by vm_compute).
    assert (dark_mode_error_count (before_step_3 env chat_abc (fresh_state None)).2
              + 1 < 5) as Hlt by (vm_compute; lia).
    destruct (proj2 (intercepted_click_outside_dialog env chat_abc (fresh_state None)
                       _ _ (intercepted OBSCURED_BY_DARK_HTML) Hreach eq_refl eq_refl)
                Hmark Hlt)
      as (st' & Hrun & _ & Hcount).
    exists st'. split; [done|]. by rewrite Hcount.
Defined.

(** * Further properties *)

(** ** [get_firefox_profile] *)

Lemma first_profile_some base entries p :
  Profile.first_profile base entries = Some p ↔
  ∃ before name after,
    entries = before ++ (name, true) :: after
    ∧ (PyStr.contains "default" name || PyStr.contains "release" name) = true
    ∧ (∀ entry, entry ∈ before → Profile.is_profile entry = false)
    ∧ p = base ++ [name].
Proof.
  induction entries as [|[name dir] rest IH]; cbn [Profile.first_profile].
  - split; [done|]. intros (before & name & after & Heq & _). by destruct before.
  - destruct (Profile.is_profile (name, dir)) eqn:Hentry.
    + split.
      * intros [= <-]. unfold Profile.is_profile in Hentry. cbn in Hentry.
        apply andb_true_iff in Hentry as [-> Hname].
        exists [], name, rest. split; [done|]. split; [done|]. split; [|done].
        by intros entry ?%elem_of_nil.
      * intros (before & name' & after & Heq & Hname & Hbefore & ->).
        destruct before as [|entry before].
        -- by injection Heq as -> ->.
        -- injection Heq as <- _. rewrite Hbefore in Hentry; [done|left].
    + rewrite IH. split.
      * intros (before & name' & after & -> & Hname & Hbefore & ->).
        exists ((name, dir) :: before), name', after.
        split; [done|]. split; [done|]. split; [|done].
        intros entry [->|Hin]%elem_of_cons; [done|by apply Hbefore].
      * intros (before & name' & after & Heq & Hname & Hbefore & ->).
        destruct before as [|entry before].
        -- injection Heq as -> -> ->. unfold Profile.is_profile in Hentry.
           cbn in Hentry. by rewrite Hname in Hentry.
        -- injection Heq as <- ->. exists before, name', after.
           split; [done|]. split; [done|]. split; [|done].
           intros entry Hin. apply Hbefore. by right.
Qed.

(** X1. [get_firefox_profile] returns a path exactly when the platform
    is one of the three it knows and the directory of profiles has an
    entry that is a directory with [default] or [release] in its name;
    the path is that of the first such entry in the order of the
    listing. *)
Theorem first_qualifying_profile (m : Profile.Machine) (p : list string) :
  Profile.get_firefox_profile m = Some p ↔
  ∃ base before name after,
    Profile.base_dir m = Some base
    ∧ Profile.glob m base = before ++ (name, true) :: after
    ∧ (PyStr.contains "default" name || PyStr.contains "release" name) = true
    ∧ (∀ entry, entry ∈ before → Profile.is_profile entry = false)
    ∧ p = base ++ [name].
Proof.
  unfold Profile.get_firefox_profile.
  destruct (Profile.base_dir m) as [base|].
  - rewrite first_profile_some. split.
    + intros (before & name & after & H). by exists base, before, name, after.
    + intros (base' & before & name & after & [= <-] & H).
      by exists before, name, after.
  - split; [done|]. by intros (base & before & name & after & [=] & _).
Qed.

Example profile_skips_files_and_other_names :
  Profile.get_firefox_profile
    (linux_machine [("Crash Reports", true); ("profiles.ini", false);
                    ("installs.default.bak", false); ("ab12.default-release", true);
                    ("cd34.default", true)])
  = Some ["/"; "home"; "user"; ".mozilla"; "firefox"; "ab12.default-release"].
Proof. reflexivity. Qed.

(** ** [_load_deleted_log] on a file that can be read *)

(** X2. When the file exists, opens, and holds a JSON array of strings,
    [_load_deleted_log] replaces the set, whatever it held, by the set
    of the strings of the array (repeated strings counting once), logs
    their number, and leaves the file alone. *)
Theorem load_replaces_set env (st : State) (text : string) (ids : list string) :
  disk st = Some text →
  env_fault env (trace st) (Open DELETED_LOG_FILE "r") = None →
  Json.json_load text = Some ids →
  ∃ st', _load_deleted_log env st = (Returned (), st')
    ∧ deleted_chat_ids st' = list_to_set ids
    ∧ disk st' = Some text
    ∧ log st' =
        (INFO, "Loaded " +:+ pretty (size (list_to_set (C:=gset string) ids))
                 +:+ " deleted chat IDs") :: log st.
Proof.
  intros Hdisk Hopen Hjson. unfold _load_deleted_log. unfold_monad.
  rewrite Hdisk, Hopen, (load_ids_array _ _ _ Hjson). cbn. eauto.
Qed.

Lemma load_replaces_set_witness :
  ∃ st', _load_deleted_log (env_quiet [] [])
           (set_deleted_chat_ids {["old"]}
              (fresh_state (Some (Json.json_dump ["a"; "b"; "a"]))))
         = (Returned (), st')
    ∧ deleted_chat_ids st' = {["a"; "b"]}
    ∧ log st' = [(INFO, "Loaded 2 deleted chat IDs")].
Proof.
  destruct (load_replaces_set (env_quiet [] [])
              (set_deleted_chat_ids {["old"]}
                 (fresh_state (Some (Json.json_dump ["a"; "b"; "a"]))))
              (Json.json_dump ["a"; "b"; "a"]) ["a"; "b"; "a"])
    as (st' & Hrun & Hset & _ & Hlog); [reflexivity|reflexivity|by vm_compute|].
  exists st'. split; [done|]. split.
  - rewrite Hset. by vm_compute.
  - rewrite Hlog. by vm_compute.
Defined.

(** ** [run] and the script *)

Lemma finish_quits env r st :
  ∃ st', finish env r st = (Returned (), st')
    ∧ trace st' = Quit :: trace st
    ∧ store st' = store st.
Proof.
  unfold finish. unfold_monad.
  destruct r as [[]|[]|e]; cbn; destruct (env_fault _ _ _); eauto.
Qed.

Lemma run_ends env fuel st r st' :
  run env fuel st = (Some r, st') →
  r = Returned ()
  ∧ match env_fault env (trace st) (Firefox (options st)) with
    | Some e =>
        trace st' = Firefox (options st) :: trace st
        ∧ log st' = (ERROR, "Error during execution: " +:+ exn_str e) :: log st
    | None => ∃ h, trace st' = Quit :: h
    end.
Proof.
  unfold run. unfold call at 1, call_for.
  destruct (env_fault env (trace st) (Firefox (options st))) as [e|].
  { by intros [= <- <-]. }
  match goal with
  | |- context [(?m ≫= ?k) ?s] => destruct ((m ≫= k) s) as [[[]|[]|e] st2]
  end.
  - destruct (main_loop env fuel st2) as [[r3|] st3]; [|done].
    destruct (finish_quits env r3 st3) as (st4 & -> & Htrace & _).
    intros [= <- <-]. eauto.
  - destruct (finish_quits env (Return ()) st2) as (st4 & -> & Htrace & _).
    intros [= <- <-]. eauto.
  - destruct (finish_quits env (Raise e) st2) as (st4 & -> & Htrace & _).
    intros [= <- <-]. eauto.
Qed.

(** X3. [run] never raises: whenever it ends, it returns.  If the
    browser could not be launched it has logged the error and made no
    other call; if it was launched, the last call [run] makes is
    [driver.quit()], whatever happened in between. *)
Theorem run_returns_and_quits env (fuel : nat) (st st' : State) (r : Result unit) :
  run env fuel st = (Some r, st') →
  r = Returned ()
  ∧ match env_fault env (trace st) (Firefox (options st)) with
    | Some e =>
        trace st' = Firefox (options st) :: trace st
        ∧ log st' = (ERROR, "Error during execution: " +:+ exn_str e) :: log st
    | None => ∃ h, trace st' = Quit :: h
    end.
Proof. apply run_ends. Qed.

Lemma run_returns_and_quits_witness :
  (run env_reload_fails 1 (delete_repeatedly env_reload_fails chat_abc 4
                             (fresh_state None))).1 = Some (Returned ())
  ∧ ∃ h, trace (run env_reload_fails 1
                  (delete_repeatedly env_reload_fails chat_abc 4
                     (fresh_state None))).2 = Quit :: h.
Proof.
  set (st := delete_repeatedly env_reload_fails chat_abc 4 (fresh_state None)).
  destruct (run env_reload_fails 1 st) as [r st'] eqn:Hrun.
  assert (r = Some (Returned ())) as -> by (by vm_compute in Hrun; injection Hrun as <- _).
  destruct (run_returns_and_quits env_reload_fails 1 st st' (Returned ()) Hrun)
    as [_ Hquit].
  split; [done|]. exact Hquit.
Defined.

(** X4. The script crashes exactly when no Firefox profile is found,
    with the exception of [__init__] and before any call is made on the
    browser or the disk; in every other case it never raises, not even
    when the browser cannot be launched. *)
Theorem main_crashes_only_without_profile env (HEADLESS disk0 : option string)
    (fuel : nat) :
  match main env HEADLESS disk0 fuel with
  | Crashed e =>
      exn_str e = "No Firefox profile found!"
      ∧ ¬ (∃ c p, env_profile env = Some (String c p))
  | Running _ => ∃ c p, env_profile env = Some (String c p)
  | Ended r _ => r = Returned () ∧ ∃ c p, env_profile env = Some (String c p)
  end.
Proof.
  unfold main, __init__, get_firefox_profile.
  destruct (env_profile env) as [[|c p]|].
  - split; [done|]. by intros (c & p & [=]).
  - match goal with
    | |- context [_load_deleted_log env ?s] =>
        assert (∃ s', _load_deleted_log env s = (Returned (), s')) as [s' ->]
    end.
    { unfold _load_deleted_log, load_ids. unfold_monad. cbn.
      destruct disk0 as [text|]; [|by eauto].
      destruct (env_fault _ _ _); [by eauto|].
      destruct (Json.loads text) as [v|]; [|by eauto].
      destruct (Json.as_set v); eauto. }
    destruct (run env fuel s') as [[r|] st'] eqn:Hrun; [|by eauto].
    apply run_ends in Hrun as [-> _]. eauto.
  - split; [done|]. by intros (c & p & [=]).
Qed.

(** ** [_try_confirm_button_with_retries] *)

Lemma try_confirm_attempt_absent env max_attempts attempt st :
  button_absent env [CONFIRM_BUTTON] →
  ∃ msg, try_confirm_attempt env max_attempts attempt st =
    (Normal (), record_log WARNING msg (record_events (retry_events [attempt]) st)).
Proof.
  intros Habsent. unfold try_confirm_attempt, try_except. rewrite bind_eq.
  assert (∀ s, ∃ e, call_element (R:=bool) env (FindElement Driver XPATH CONFIRM_BUTTON) s
                      = (Raise e, record_event (FindElement Driver XPATH CONFIRM_BUTTON) s)
                    ∧ exn_class e = NoSuchElementException) as Hsearch.
  { intros s. destruct (Habsent CONFIRM_BUTTON (trace s)) as (e & He & Hclass); [left|].
    exists e. unfold call_element, call_for. by rewrite He. }
  unfold retry_events. cbn [mbind list_bind mret]. rewrite app_nil_r.
  case_decide.
  - unfold sleep, modify. cbv beta iota. rewrite bind_eq.
    destruct (Hsearch (record_event (Sleep 1) st)) as (e & -> & Hclass).
    case_decide; [|done]. by eexists.
  - unfold mret, M_ret. cbv beta iota. rewrite bind_eq.
    destruct (Hsearch st) as (e & -> & Hclass).
    case_decide; [|done]. by eexists.
Qed.

Lemma retry_events_cons attempt rest :
  retry_events (attempt :: rest) = retry_events [attempt] ++ retry_events rest.
Proof. unfold retry_events. cbn [mbind list_bind]. by rewrite app_nil_r. Qed.

Lemma try_confirm_attempts_absent env max_attempts attempts st :
  button_absent env [CONFIRM_BUTTON] →
  ∃ st', try_confirm_attempts env max_attempts attempts st = (Normal (), st')
    ∧ trace st' = rev (retry_events attempts) ++ trace st.
Proof.
  intros Habsent. revert st.
  induction attempts as [|attempt rest IH]; intros st; [by eexists|].
  cbn [try_confirm_attempts]. rewrite bind_eq.
  destruct (try_confirm_attempt_absent env max_attempts attempt st Habsent) as [msg ->].
  destruct (IH (record_log WARNING msg (record_events (retry_events [attempt]) st)))
    as (st' & -> & Htrace).
  exists st'. split; [done|]. rewrite Htrace.
  change (trace (record_log WARNING msg ?s)) with (trace s).
  rewrite trace_record_events, (retry_events_cons attempt rest).
  by rewrite rev_app_distr, <- app_assoc.
Qed.

(** X5. When the search for the confirmation button raises
    [NoSuchElementException] every time and the reload does not fail,
    [_try_confirm_button_with_retries] searches [max_attempts] times,
    one second apart, then reloads the page once and returns [False];
    with [max_attempts] zero or negative it reloads at once. *)
Theorem retries_exhausted env (max_attempts : Z) (st : State) :
  button_absent env [CONFIRM_BUTTON] →
  env_fault env
    (rev (retry_events (seq 0 (Z.to_nat max_attempts))) ++ trace st) Refresh = None →
  ∃ st', _try_confirm_button_with_retries env max_attempts st = (Returned false, st')
    ∧ trace st' =
        Sleep 5 :: Refresh
          :: rev (retry_events (seq 0 (Z.to_nat max_attempts))) ++ trace st
    ∧ ((max_attempts ≤ 0)%Z → trace st' = Sleep 5 :: Refresh :: trace st).
Proof.
  intros Habsent Href. unfold _try_confirm_button_with_retries, def.
  rewrite bind_eq.
  destruct (try_confirm_attempts_absent env max_attempts
              (seq 0 (Z.to_nat max_attempts)) st Habsent) as (st1 & -> & Htrace).
  destruct st1 as [ids cur n opts d tr lg]. cbn [trace] in Htrace. subst tr.
  remember (rev (retry_events (seq 0 (Z.to_nat max_attempts)))) as evs eqn:Hevs.
  unfold_monad. cbn. rewrite Href.
  eexists. split; [done|]. split; [done|].
  intros Hle. subst evs. by replace (Z.to_nat max_attempts) with 0 by lia.
Qed.

Lemma retries_exhausted_witness :
  ∃ st', _try_confirm_button_with_retries env_no_button 5 (fresh_state None)
         = (Returned false, st')
    ∧ reloads st' = 1
    ∧ length (trace st') = 11.
Proof.
  destruct (retries_exhausted env_no_button 5 (fresh_state None))
    as (st' & Hrun & Htrace & _).
  - intros selector h _. eexists. split; reflexivity.
  - reflexivity.
  - exists st'. split; [done|]. unfold reloads. rewrite Htrace. by vm_compute.
Defined.

Lemma try_confirm_attempt_outcome env max_attempts attempt st :
  (try_confirm_attempt env max_attempts attempt st).1 = Normal ()
  ∨ (try_confirm_attempt env max_attempts attempt st).1 = Return true
    ∧ just_clicked env (try_confirm_attempt env max_attempts attempt st).2.
Proof.
  unfold try_confirm_attempt, just_clicked. unfold_monad.
  case_decide; cbn.
  - destruct (env_fault env (Sleep 1 :: trace st) _) eqn:Hfind; cbn;
      [case_decide; by left|].
    destruct (env_fault env (_ :: Sleep 1 :: trace st) _) eqn:Hclick; cbn;
      [case_decide; by left|].
    right. split; [done|]. by eexists _, _.
  - destruct (env_fault env (trace st) _) eqn:Hfind; cbn;
      [case_decide; by left|].
    destruct (env_fault env (_ :: trace st) _) eqn:Hclick; cbn;
      [case_decide; by left|].
    right. split; [done|]. by eexists _, _.
Qed.

Lemma try_confirm_attempts_outcome env max_attempts attempts st :
  (try_confirm_attempts env max_attempts attempts st).1 = Normal ()
  ∨ (try_confirm_attempts env max_attempts attempts st).1 = Return true
    ∧ just_clicked env (try_confirm_attempts env max_attempts attempts st).2.
Proof.
  revert st. induction attempts as [|attempt rest IH]; intros st; [by left|].
  cbn [try_confirm_attempts]. rewrite bind_eq.
  destruct (try_confirm_attempt_outcome env max_attempts attempt st) as [H|[H Hc]];
    destruct (try_confirm_attempt env max_attempts attempt st) as [r st1];
    cbn in H; subst r; [apply IH|by right].
Qed.

(** X6. [_try_confirm_button_with_retries] returns [True] only right
    after a click that did not raise; it returns [False] only after
    having reloaded the page; and the only exception that leaves it is
    one raised by that reload. *)
Theorem retries_outcome env (max_attempts : Z) (st : State) :
  match _try_confirm_button_with_retries env max_attempts st with
  | (Returned true, st') => just_clicked env st'
  | (Returned false, st') =>
      ∃ h, trace st' = Sleep 5 :: Refresh :: h ∧ env_fault env h Refresh = None
  | (Raised e, st') =>
      ∃ h, trace st' = Refresh :: h ∧ env_fault env h Refresh = Some e
  end.
Proof.
  unfold _try_confirm_button_with_retries, def. rewrite bind_eq.
  destruct (try_confirm_attempts_outcome env max_attempts
              (seq 0 (Z.to_nat max_attempts)) st) as [H|[H Hc]];
    destruct (try_confirm_attempts env max_attempts _ st) as [r st1];
    cbn in H; subst r; [|done].
  unfold_monad. cbn.
  destruct (env_fault env (trace st1) Refresh) eqn:Href; cbn; eauto.
Qed.

(** ** [_get_chats] on a sidebar that does not change *)

Lemma get_chat_stable env element chats st href_of stale :
  (∀ h e, env_fault env h (GetAttribute e "href") = stale e) →
  (∀ h e, env_attribute env h (GetAttribute e "href") = href_of e) →
  (get_chat env element chats st).1 =
    Normal (chats ++ option_list
              (if stale element is Some _ then None
               else chat_of_link (deleted_chat_ids st) (href_of element) element)).
Proof.
  intros Hstale Hhref. unfold get_chat, chat_of_link. unfold_monad.
  rewrite Hstale, Hhref.
  destruct (stale element); cbn; [by rewrite app_nil_r|].
  destruct (is_chat_href (href_of element)); cbn; [|by rewrite app_nil_r].
  case_decide; cbn; [by rewrite app_nil_r|done].
Qed.

Lemma get_chats_from_stable env elements chats st href_of stale :
  (∀ h e, env_fault env h (GetAttribute e "href") = stale e) →
  (∀ h e, env_attribute env h (GetAttribute e "href") = href_of e) →
  (get_chats_from env elements chats st).1 =
    Normal (chats ++ omap (λ e, if stale e is Some _ then None
                                else chat_of_link (deleted_chat_ids st) (href_of e) e)
                       elements).
Proof.
  intros Hstale Hhref. revert chats st.
  induction elements as [|element rest IH]; intros chats st.
  - cbn. by rewrite app_nil_r.
  - cbn [get_chats_from]. rewrite bind_eq.
    pose proof (get_chat_stable env element chats st href_of stale Hstale Hhref) as H1.
    pose proof (get_chat_keeps_deleted env element chats st) as Hk.
    destruct (get_chat env element chats st) as [r1 st1]. cbn in H1, Hk. subst r1.
    rewrite IH, Hk. f_equal. rewrite <- app_assoc. f_equal.
    cbn [omap list_omap].
    by destruct (if stale element is Some _ then None else _).
Qed.

(** X7. On a sidebar that does not change, where the wait and the
    search succeed, [_get_chats] returns, in the order of the links
    found, one chat for each link that answers (is not stale), whose
    [href] is not empty and contains [/c/], and whose identifier, the
    part of the [href] after its last slash, is not in the set of
    deleted identifiers; links with the same [href] give one chat
    each. *)
Theorem get_chats_lists_pending_links env (st : State) (links : list WebElement)
    (href_of : WebElement → option string) (stale : WebElement → option Exn) :
  env_fault env (trace st)
    (WaitUntil Driver WAIT_TIMEOUT presence_of_element_located CSS_SELECTOR CHAT_LINK)
    = None →
  (∀ h, env_fault env h (FindElements CSS_SELECTOR CHAT_LINK) = None) →
  (∀ h, env_elements env h (FindElements CSS_SELECTOR CHAT_LINK) = links) →
  (∀ h e, env_fault env h (GetAttribute e "href") = stale e) →
  (∀ h e, env_attribute env h (GetAttribute e "href") = href_of e) →
  (_get_chats env st).1 =
    Returned (omap (λ e, if stale e is Some _ then None
                         else chat_of_link (deleted_chat_ids st) (href_of e) e)
                links).
Proof.
  intros Hwait Hfind Hlinks Hstale Hhref.
  unfold _get_chats. unfold_monad. rewrite Hwait, Hfind, Hlinks. cbn.
  match goal with
  | |- context [get_chats_from env links [] ?s] =>
      pose proof (get_chats_from_stable env links [] s href_of stale Hstale Hhref) as H1;
      destruct (get_chats_from env links [] s) as [r1 s1]
  end.
  cbn in H1. by subst r1.
Qed.

Lemma get_chats_lists_pending_links_witness :
  let href_of e :=
    [Some "https://chat.openai.com/c/abc"; Some "https://chat.openai.com/c/done";
     None; Some "https://chat.openai.com/gpts"; Some "https://chat.openai.com/c/xyz";
     Some "https://chat.openai.com/c/abc"] !! e ≫= id in
  let stale e := if decide (e = 4) then Some no_such_element else None in
  (_get_chats (env_sidebar [0; 1; 2; 3; 4; 5] href_of stale)
     (set_deleted_chat_ids {["done"]} (fresh_state None))).1
  = Returned [{| chat_id := "abc"; chat_element := 0 |};
              {| chat_id := "abc"; chat_element := 5 |}].
Proof.
  intros href_of stale.
  rewrite (get_chats_lists_pending_links
             (env_sidebar [0; 1; 2; 3; 4; 5] href_of stale)
             (set_deleted_chat_ids {["done"]} (fresh_state None))
             [0; 1; 2; 3; 4; 5] href_of stale);
    [by vm_compute|reflexivity|reflexivity|reflexivity|reflexivity|reflexivity].
Defined.

(** ** The identifier of a chat *)

Lemma contains_slash_cons c s :
  PyStr.contains "/" (String c s) = Ascii.eqb c "/" || PyStr.contains "/" s.
Proof.
  cbn [PyStr.contains String.prefix].
  destruct (ascii_dec "/" c) as [<-|Hne]; [by destruct s|].
  apply not_eq_sym, Ascii.eqb_neq in Hne. by rewrite Hne.
Qed.

Lemma contains_chat_path_slash s :
  PyStr.contains "/c/" s = true → PyStr.contains "/" s = true.
Proof.
  induction s as [|c s IH]; [done|].
  rewrite contains_slash_cons. cbn [PyStr.contains String.prefix].
  destruct (ascii_dec "/" c) as [<-|Hne]; [done|].
  cbn. intros H. rewrite IH by done. apply orb_true_r.
Qed.

(** The pieces of [s.split('/')]: the last one has no slash, and [s] is
    that piece alone or ends in a slash followed by it. *)
Lemma split_last_piece s :
  ∃ pieces piece,
    PyStr.split "/" s = pieces ++ [piece]
    ∧ PyStr.contains "/" piece = false
    ∧ (pieces = [] → s = piece ∧ PyStr.contains "/" s = false)
    ∧ (pieces ≠ [] → ∃ q, s = q +:+ "/" +:+ piece).
Proof.
  induction s as [|c s (pieces & piece & Hsplit & Hpiece & Hone & Hmore)].
  { exists [], "". by repeat split. }
  cbn [PyStr.split]. rewrite Hsplit.
  destruct (Ascii.eqb c "/") eqn:Hc.
  - apply Ascii.eqb_eq in Hc as ->.
    exists ("" :: pieces), piece. split; [done|]. split; [done|]. split; [done|].
    intros _. destruct pieces as [|p ps].
    + destruct Hone as [-> _]; [done|]. by exists "".
    + destruct Hmore as [q ->]; [done|]. by exists (String "/" q).
  - destruct pieces as [|p ps]; cbn [app].
    + destruct Hone as [-> Hs]; [done|].
      exists [], (String c piece). split; [done|].
      rewrite contains_slash_cons, Hc, Hpiece. by repeat split.
    + destruct Hmore as [q ->]; [done|].
      exists (String c p :: ps), piece. split; [done|]. split; [done|].
      split; [done|]. intros _. by exists (String c q).
Qed.

Lemma last_piece_split s :
  PyStr.contains "/" (PyStr.last_piece (PyStr.split "/" s)) = false
  ∧ (PyStr.contains "/" s = true →
     ∃ q, s = q +:+ "/" +:+ PyStr.last_piece (PyStr.split "/" s)).
Proof.
  destruct (split_last_piece s) as (pieces & piece & Hsplit & Hpiece & Hone & Hmore).
  unfold PyStr.last_piece. rewrite Hsplit, last_last. split; [done|].
  intros Hs. destruct pieces as [|p ps]; [|by apply Hmore].
  destruct Hone as [_ Hno]; [done|]. congruence.
Qed.

Lemma get_chat_from_link env element (chats : list Chat) st :
  ∃ chats', (get_chat env element chats st).1 = Normal chats'
    ∧ ∀ c, c ∈ chats' → c ∈ chats ∨ from_link env (deleted_chat_ids st) c.
Proof.
  unfold get_chat. unfold_monad.
  destruct (env_fault env (trace st) _) eqn:Hfault; cbn; [by eauto|].
  destruct (is_chat_href _) eqn:Hhref; cbn; [|by eauto].
  case_decide as Hin; cbn; [by eauto|].
  eexists. split; [done|]. intros c [Hc|Hc%list_elem_of_singleton]%elem_of_app.
  - by left.
  - right. subst c. exists (trace st). split; [done|].
    unfold chat_of_link. cbn. rewrite Hhref. by case_decide.
Qed.

Lemma get_chats_from_links env elements (chats : list Chat) st (D : gset string) :
  deleted_chat_ids st = D →
  (∀ c, c ∈ chats → from_link env D c) →
  ∃ chats', (get_chats_from env elements chats st).1 = Normal chats'
    ∧ ∀ c, c ∈ chats' → from_link env D c.
Proof.
  revert chats st. induction elements as [|element rest IH]; intros chats st HD Hchats.
  - cbn. eauto.
  - cbn [get_chats_from]. rewrite bind_eq.
    destruct (get_chat_from_link env element chats st) as (chats1 & H1 & Hc1).
    pose proof (get_chat_keeps_deleted env element chats st) as Hk.
    destruct (get_chat env element chats st) as [r1 st1]. cbn in H1, Hk. subst r1.
    apply IH; [congruence|].
    intros c Hc. destruct (Hc1 c Hc) as [?|?]; [by auto|]. by rewrite <- HD.
Qed.

(** X8. Every chat that [_get_chats] returns was made of an [href]
    that its element answered: the [href] contains [/c/], it is a text
    ending in a slash followed by the chat's identifier, and the
    identifier has no slash in it. *)
Theorem chat_id_follows_last_slash env (st st' : State) (chats : list Chat) (c : Chat) :
  _get_chats env st = (Returned chats, st') →
  c ∈ chats →
  ∃ h href q,
    env_fault env h (GetAttribute (chat_element c) "href") = None
    ∧ env_attribute env h (GetAttribute (chat_element c) "href") = Some href
    ∧ PyStr.contains "/c/" href = true
    ∧ href = q +:+ "/" +:+ chat_id c
    ∧ PyStr.contains "/" (chat_id c) = false.
Proof.
  intros Hrun Hc.
  assert (from_link env (deleted_chat_ids st) c) as (h & Hfault & Hlink).
  { revert Hrun. unfold _get_chats. unfold_monad.
    destruct (env_fault _ _ _); cbn.
    { intros [= <- _]. by apply elem_of_nil in Hc. }
    destruct (env_fault _ _ _); cbn.
    { intros [= <- _]. by apply elem_of_nil in Hc. }
    match goal with
    | |- context [get_chats_from env ?els [] ?s] =>
        destruct (get_chats_from_links env els [] s (deleted_chat_ids st))
          as (chats1 & H1 & Hall);
        [done|by intros c0 ?%elem_of_nil|];
        destruct (get_chats_from env els [] s) as [r1 s1]
    end.
    cbn in H1. subst r1. intros [= <- _]. by apply Hall. }
  unfold chat_of_link, is_chat_href in Hlink.
  destruct (env_attribute env h _) as [href|] eqn:Hattr; [|done].
  destruct (PyStr.truthy href && PyStr.contains "/c/" href) eqn:Hhref; [|done].
  apply andb_true_iff in Hhref as [_ Hpath].
  case_decide; [done|]. injection Hlink as <-. cbn.
  destruct (last_piece_split href) as [Hno Hq].
  destruct Hq as [q Hq]; [by apply contains_chat_path_slash|].
  by exists h, href, q.
Qed.

Lemma chat_id_follows_last_slash_witness :
  ∃ h href q,
    env_fault (env_quiet [0] ["https://chat.openai.com/c/abc-123"]) h
      (GetAttribute 0 "href") = None
    ∧ env_attribute (env_quiet [0] ["https://chat.openai.com/c/abc-123"]) h
        (GetAttribute 0 "href") = Some href
    ∧ PyStr.contains "/c/" href = true
    ∧ href = q +:+ "/" +:+ "abc-123"
    ∧ PyStr.contains "/" "abc-123" = false.
Proof.
  set (env := env_quiet [0] ["https://chat.openai.com/c/abc-123"]).
  apply (chat_id_follows_last_slash env (fresh_state None)
           (_get_chats env (fresh_state None)).2
           [{| chat_id := "abc-123"; chat_element := 0 |}]
           {| chat_id := "abc-123"; chat_element := 0 |}).
  - by vm_compute.
  - left.
Defined.

(** ** The confirmation loop of [_delete_chat] *)

Lemma try_selectors_outcome env selectors st :
  ∃ success, (try_selectors env selectors st).1 = Normal success
    ∧ (success = true → just_clicked env (try_selectors env selectors st).2).
Proof.
  revert st. induction selectors as [|selector rest IH]; intros st.
  { by exists false. }
  cbn [try_selectors]. unfold just_clicked. unfold_monad.
  destruct (env_fault env (trace st) _) eqn:Hfind; cbn.
  { case_decide; apply IH. }
  destruct (env_fault env (_ :: trace st) _) eqn:Hclick; cbn.
  { case_decide; apply IH. }
  exists true. split; [done|]. intros _. by eexists _, _.
Qed.

Lemma confirm_attempts_outcome env attempts st :
  ∃ success, (confirm_attempts env attempts st).1 = Normal success
    ∧ (success = true → just_clicked env (confirm_attempts env attempts st).2).
Proof.
  revert st. induction attempts as [|attempt rest IH]; intros st.
  { by exists false. }
  cbn [confirm_attempts]. rewrite bind_eq.
  destruct (decide (0 < attempt)) as [?|?].
  - unfold sleep, modify. cbv beta iota. rewrite bind_eq.
    destruct (try_selectors_outcome env button_selectors (record_event (Sleep 1) st))
      as (success & H & Hc).
    destruct (try_selectors env button_selectors _) as [r st1].
    cbn in H. subst r. destruct success; [by exists true|apply IH].
  - unfold mret, M_ret. cbv beta iota. rewrite bind_eq.
    destruct (try_selectors_outcome env button_selectors st) as (success & H & Hc).
    destruct (try_selectors env button_selectors _) as [r st1].
    cbn in H. subst r. destruct success; [by exists true|apply IH].
Qed.

(** X9. The confirmation loop of [_delete_chat] catches every fault of
    its searches and clicks: step 6 goes on to the verification only
    right after a click on a confirmation button that did not raise;
    otherwise it reloads the page, and then either returns [False] with
    the fault counter reset to 0, or is left by the exception of the
    reload itself. *)
Theorem confirm_step_outcome env (st : State) :
  match step_6_confirm env st with
  | (Normal _, st') => just_clicked env st'
  | (Return deleted, st') =>
      deleted = false ∧ dark_mode_error_count st' = 0
      ∧ ∃ h, trace st' = Sleep 5 :: Refresh :: h ∧ env_fault env h Refresh = None
  | (Raise e, st') =>
      ∃ h, trace st' = Refresh :: h ∧ env_fault env h Refresh = Some e
  end.
Proof.
  unfold step_6_confirm. rewrite bind_eq.
  destruct (confirm_attempts_outcome env (seq 0 5) st) as (success & H & Hc).
  destruct (confirm_attempts env (seq 0 5) st) as [r st1].
  cbn in H. subst r. destruct success; [by apply Hc|].
  unfold_monad. cbn.
  destruct (env_fault env (trace st1) Refresh) eqn:Href; cbn; eauto.
Qed.

(** ** The polls of step 7 *)

Lemma verify_gone_poll env chat remaining st :
  verify_gone env chat (S remaining) st =
    match env_fault env (trace st) (link_poll chat) with
    | None =>
        verify_gone env chat remaining (record_events [link_poll chat; Sleep 1] st)
    | Some e =>
        if decide (exn_class e = NoSuchElementException)
        then (Return true,
              record_log INFO ("Successfully deleted chat " +:+ chat_id chat)
                (record_event (link_poll chat) st))
        else (Raise e, record_event (link_poll chat) st)
    end.
Proof.
  cbn [verify_gone]. unfold try_except_class, call_element, call_for.
  fold (link_poll chat). unfold_monad. cbn.
  destruct (env_fault env (trace st) (link_poll chat)) as [e|]; cbn; [|done].
  by case_decide.
Qed.

Lemma verify_gone_until env chat found extra st e :
  (∀ j, j < found →
     env_fault env
       (trace (record_events (concat (replicate j [link_poll chat; Sleep 1])) st))
       (link_poll chat) = None) →
  env_fault env
    (trace (record_events (concat (replicate found [link_poll chat; Sleep 1])) st))
    (link_poll chat) = Some e →
  verify_gone env chat (found + S extra) st =
    let st' := record_events
                 (concat (replicate found [link_poll chat; Sleep 1]) ++ [link_poll chat])
                 st in
    if decide (exn_class e = NoSuchElementException)
    then (Return true,
          record_log INFO ("Successfully deleted chat " +:+ chat_id chat) st')
    else (Raise e, st').
Proof.
  revert st. induction found as [|found IH]; intros st Hfound Hgone.
  - cbn in Hgone. cbn [Nat.add]. rewrite verify_gone_poll, Hgone. done.
  - cbn [Nat.add]. rewrite verify_gone_poll.
    pose proof (Hfound 0 ltac:(lia)) as H0. cbn in H0. rewrite H0.
    rewrite IH.
    + cbn [replicate concat]. cbv zeta. by rewrite <- app_assoc, !record_events_app.
    + intros j Hj. specialize (Hfound (S j)). cbn [replicate concat] in Hfound.
      rewrite record_events_app in Hfound. apply Hfound. lia.
    + cbn [replicate concat] in Hgone. by rewrite record_events_app in Hgone.
Qed.

(** X10. Step 7 is decided by the first poll that does not find the
    chat's link. When the verification is reached, the first [found]
    polls (fewer than 3) find the link and the next one raises [e]:
    if [e] is a [NoSuchElementException], [_delete_chat] logs the
    success and returns [True] at once, after exactly [found + 1] polls
    one second apart; if [e] is any other exception (a stale element, a
    time-out) it goes to the handler of the whole body and the call
    never returns [True]. *)
Theorem first_failed_poll_decides env (chat : Chat) (st st6 : State) (found : nat)
    (e : Exn) :
  before_step_7 env chat st = (Normal (), st6) →
  found < 3 →
  (∀ j, j < found →
     env_fault env (trace (record_events (polls_found chat j) st6)) (link_poll chat)
       = None) →
  env_fault env (trace (record_events (polls_found chat found) st6)) (link_poll chat)
    = Some e →
  let st7 := record_events (polls_found chat found ++ [link_poll chat]) st6 in
  if decide (exn_class e = NoSuchElementException) then
    _delete_chat env chat st =
      (Returned true,
       record_log INFO ("Successfully deleted chat " +:+ chat_id chat) st7)
  else
    _delete_chat env chat st = def false (on_error env chat e) st7
    ∧ (_delete_chat env chat st).1 ≠ Returned true.
Proof.
  intros Hreach Hlt Hfound Hgone st7.
  assert (step_7_verify env chat st6
          = if decide (exn_class e = NoSuchElementException)
            then (Return true,
                  record_log INFO ("Successfully deleted chat " +:+ chat_id chat) st7)
            else (Raise e, st7)) as Hstep.
  { unfold step_7_verify. rewrite bind_eq. unfold sleep at 1, modify at 1.
    cbv beta iota. rewrite bind_eq.
    replace 3 with (found + S (2 - found)) at 1 by lia.
    rewrite (verify_gone_until env chat found (2 - found) _ e); [|done|done].
    cbv zeta. subst st7. by case_decide. }
  rewrite delete_chat_eq, (body_from_step_7 _ _ _ _ Hreach), Hstep.
  case_decide; [done|]. split; [done|].
  unfold def. pose proof (on_error_never_true env chat e st7) as Hh.
  by destruct (on_error env chat e st7) as [[[]|[|]|e'] st8].
Qed.

Lemma first_failed_poll_decides_witness :
  ∃ st', _delete_chat env_deleted_late chat_abc (fresh_state None) = (Returned true, st')
    ∧ reloads st' = 0.
Proof.
  pose proof (first_failed_poll_decides env_deleted_late chat_abc (fresh_state None)
                (before_step_7 env_deleted_late chat_abc (fresh_state None)).2
                1 no_such_element) as H.
  cbv zeta in H. rewrite decide_True in H by done.
  eexists. split.
  - apply H.
    + by vm_compute.
    + lia.
    + intros j Hj. assert (j = 0) as -> by lia. by vm_compute.
    + by vm_compute.
  - by vm_compute.
Defined.

(** ** The file and the set in memory *)

Lemma persisted_within_store st st' :
  store st' = store st → persisted_within st → persisted_within st'.
Proof.
  intros [= Hd Hf] H text ids Htext Hids id Hid.
  rewrite Hd. rewrite Hf in Htext. by eapply H.
Qed.

Lemma delete_and_record_persisted env chat :
  preserves persisted_within (delete_and_record env chat).
Proof.
  intros st Hst. rewrite delete_and_record_eq.
  pose proof (delete_chat_keeps_store env chat st) as Hk.
  destruct (_delete_chat env chat st) as [[[|]|e] st1]; cbn in Hk |- *;
    [|by eapply persisted_within_store..].
  injection Hk as Hd Hf.
  match goal with
  | |- context [_save_deleted_log env ?s] => set (st2 := s)
  end.
  destruct (env_fault env (trace st2) (Open DELETED_LOG_FILE "w")) as [e|] eqn:Hw.
  - rewrite (save_refused _ _ e Hw). intros text ids Htext Hids id Hid.
    cbn in Htext |- *. rewrite Hf in Htext. rewrite Hd.
    apply elem_of_union_r. by eapply Hst.
  - rewrite (save_written _ _ Hw). intros text ids [= <-] Hids id Hid.
    rewrite JsonFacts.json_load_dump in Hids. injection Hids as <-.
    cbn. by apply elem_of_elements in Hid.
Qed.

Lemma delete_chats_persisted env chats :
  preserves persisted_within (delete_chats env chats).
Proof.
  induction chats as [|chat rest IH]; intros st Hst; [done|].
  cbn [delete_chats]. rewrite bind_eq.
  pose proof (delete_and_record_persisted env chat st Hst) as H1.
  destruct (delete_and_record env chat st) as [[[]|r|e] st1]; cbn in H1 |- *;
    [by apply IH|done..].
Qed.

Lemma scan_and_delete_persisted env :
  preserves persisted_within (scan_and_delete env).
Proof.
  intros st Hst. unfold scan_and_delete. rewrite bind_eq. unfold invoke at 1.
  pose proof (get_chats_keeps_store env st) as Hk.
  apply persisted_within_store in Hk; [|done].
  destruct (_get_chats env st) as [[chats|e] st1]; cbn in Hk |- *; [|done].
  destruct chats as [|chat rest]; [done|].
  rewrite bind_eq.
  pose proof (delete_chats_persisted env (chat :: rest) st1 Hk) as H1.
  by destruct (delete_chats env (chat :: rest) st1) as [[[]|r|e] st2].
Qed.

Lemma main_loop_persisted env fuel :
  preserves persisted_within (main_loop env fuel).
Proof.
  induction fuel as [|fuel IH]; intros st Hst; [done|].
  cbn [main_loop].
  pose proof (scan_and_delete_persisted env st Hst) as H1.
  destruct (scan_and_delete env st) as [[[|]|r|e] st1]; cbn in H1 |- *;
    [done|by apply IH|done..].
Qed.

Lemma run_persisted env fuel : preserves persisted_within (run env fuel).
Proof.
  intros st Hst. unfold run. unfold call at 1, call_for.
  destruct (env_fault env (trace st) (Firefox (options st))) as [e|]; [done|].
  match goal with
  | |- context [(?m ≫= ?k) ?s] =>
      assert (store ((m ≫= k) s).2 = store st) as Hk;
      [|destruct ((m ≫= k) s) as [[[]|[]|e] st2]]
  end.
  { unfold_monad. cbn. by repeat (destruct (env_fault _ _ _); cbn). }
  - cbn in Hk. apply persisted_within_store in Hk; [|done].
    pose proof (main_loop_persisted env fuel st2 Hk) as H3.
    destruct (main_loop env fuel st2) as [[r3|] st3]; [|done].
    destruct (finish_quits env r3 st3) as (st4 & -> & _ & Hs).
    by eapply persisted_within_store.
  - destruct (finish_quits env (Return ()) st2) as (st4 & -> & _ & Hs).
    eapply persisted_within_store; [exact Hs|]. by eapply persisted_within_store.
  - destruct (finish_quits env (Raise e) st2) as (st4 & -> & _ & Hs).
    eapply persisted_within_store; [exact Hs|]. by eapply persisted_within_store.
Qed.

Lemma init_persisted env headless disk0 st :
  env_fault env [] (Open DELETED_LOG_FILE "r") = None →
  __init__ env headless disk0 = Returned st → persisted_within st.
Proof.
  intros Hopen. unfold __init__, get_firefox_profile.
  destruct (env_profile env) as [[|c p]|]; [done| |done].
  unfold _load_deleted_log. unfold_monad.
  destruct disk0 as [text|]; cbn; [|by intros [= <-] ? ? [=]].
  rewrite Hopen. cbn.
  destruct (Json.json_load text) as [ids|] eqn:Hload.
  - rewrite (load_ids_array _ _ _ Hload). cbn.
    intros [= <-] text' ids' [= <-] Hids id Hid. cbn.
    rewrite Hload in Hids. injection Hids as <-. by apply elem_of_list_to_set.
  - intros Hinit text' ids' Hdisk Hids.
    assert (disk st = Some text) as Hst.
    { revert Hinit. unfold load_ids.
      destruct (Json.loads text) as [v|]; [destruct (Json.as_set v)|];
        by intros [= <-]. }
    congruence.
Qed.

(** X11. The file never lists an identifier that the set in memory
    lacks. [run] keeps this: if it holds when [run] starts, it holds
    when [run] ends or after any number of turns of its loop, whatever
    the browser does and whether or not the file can be written. And it
    holds from the start of the script whenever opening the file for
    reading does not fail. *)
Theorem file_within_memory env :
  (∀ fuel st, persisted_within st → persisted_within (run env fuel st).2)
  ∧ (∀ HEADLESS disk0 fuel,
       env_fault env [] (Open DELETED_LOG_FILE "r") = None →
       match main env HEADLESS disk0 fuel with
       | Crashed _ => True
       | Running st | Ended _ st => persisted_within st
       end).
Proof.
  split; [intros fuel; apply run_persisted|].
  intros HEADLESS disk0 fuel Hopen. unfold main.
  destruct (__init__ env (headless_of HEADLESS) disk0) as [st|e] eqn:Hinit; [|done].
  apply init_persisted in Hinit; [|done].
  pose proof (run_persisted env fuel st Hinit) as Hrun.
  by destruct (run env fuel st) as [[r|] st'].
Qed.

Lemma file_within_memory_witness :
  persisted_within (run env_deleted 2 (fresh_state (Some "[]"))).2
  ∧ match main env_deleted None (Some "[]") 2 with
    | Crashed _ => True
    | Running st | Ended _ st => persisted_within st
    end.
Proof.
  split.
  - apply (proj1 (file_within_memory env_deleted)).
    intros text ids [= <-] Hids. vm_compute in Hids. injection Hids as <-.
    by intros id ?%elem_of_nil.
  - apply (proj2 (file_within_memory env_deleted)). by vm_compute.
Defined.

(** ** The fault counter between calls *)

Section Preserves.
Context (P : State → Prop).

Lemma preserves_ret {R A} (a : A) : preserves P (mret (M:=M R) a).
Proof. by intros st. Qed.

Lemma preserves_return {R A} (r : R) : preserves P (return_ (A:=A) r).
Proof. by intros st. Qed.

Lemma preserves_get_state {R} : preserves P (get_state (R:=R)).
Proof. by intros st. Qed.

Lemma preserves_modify {R} (g : State → State) :
  (∀ st, P st → P (g st)) → preserves P (modify (R:=R) g).
Proof. intros Hg st. apply Hg. Qed.

Lemma preserves_bind {R A B} (m : M R A) (k : A → M R B) :
  preserves P m → (∀ a, preserves P (k a)) → preserves P (m ≫= k).
Proof.
  intros Hm Hk st HP. rewrite bind_eq. specialize (Hm st HP).
  destruct (m st) as [[a|r|e] st']; cbn in Hm |- *; try done.
  by apply Hk.
Qed.

Lemma preserves_try_except {R A} (body : M R A) (handler : Exn → M R A) :
  preserves P body → (∀ e, preserves P (handler e)) →
  preserves P (try_except body handler).
Proof.
  intros Hm Hk st HP. unfold try_except. specialize (Hm st HP).
  destruct (body st) as [[a|r|e] st']; cbn in Hm |- *; try done.
  by apply Hk.
Qed.

Lemma preserves_try_except_class {R A} cls (body : M R A) (handler : Exn → M R A) :
  preserves P body → (∀ e, preserves P (handler e)) →
  preserves P (try_except_class cls body handler).
Proof.
  intros Hm Hk st HP. unfold try_except_class. specialize (Hm st HP).
  destruct (body st) as [[a|r|e] st']; cbn in Hm |- *; try done.
  case_decide; cbn; [by apply Hk|done].
Qed.

Lemma preserves_def {R} (none : R) (body : M R unit) :
  preserves P body → preserves P (def none body).
Proof.
  intros Hm st HP. unfold def. specialize (Hm st HP).
  by destruct (body st) as [[a|r|e] st'].
Qed.

Lemma preserves_invoke {R R'} (g : State → Result R * State) :
  preserves P g → preserves P (invoke (R':=R') g).
Proof.
  intros Hg st HP. unfold invoke. specialize (Hg st HP).
  by destruct (g st) as [[r|e] st'].
Qed.

Lemma preserves_call_for {R A} env (answer : Env → list Event → Event → A) ev :
  (∀ st, P st → P (record_event ev st)) →
  preserves P (call_for (R:=R) env answer ev).
Proof. intros Hev st HP. unfold call_for. case_match; cbn; by apply Hev. Qed.

Lemma preserves_keeps {X T} (f : State → X) (m : State → T * State) :
  (∀ st st', f st' = f st → P st → P st') → keeps f m → preserves P m.
Proof. intros Hf Hm st. apply Hf, Hm. Qed.

End Preserves.

Ltac solve_preserves_with known side :=
  repeat first
    [ known
    | apply preserves_bind | apply preserves_try_except_class
    | apply preserves_try_except
    | apply preserves_def | apply preserves_invoke | apply preserves_ret
    | apply preserves_return | apply preserves_get_state
    | apply preserves_modify; solve [side]
    | apply preserves_call_for; solve [side]
    | progress intros
    | assumption
    | match goal with
      | |- preserves _ (match ?x with _ => _ end) => destruct x
      end ].

Lemma get_chats_keeps_count env : keeps dark_mode_error_count (_get_chats env).
Proof.
  unfold _get_chats. solve_keeps.
  match goal with |- keeps _ (get_chats_from _ ?els ?chats) =>
    generalize chats; induction els as [|el els IH]; intros chats0; cbn [get_chats_from]
  end.
  - solve_keeps.
  - apply keeps_bind; [unfold get_chat; solve_keeps|done].
Qed.

Lemma save_keeps_count env : keeps dark_mode_error_count (_save_deleted_log env).
Proof. unfold _save_deleted_log. solve_keeps. Qed.

Section FewFaults.
Context (env : Env).
Hypothesis Href : ∀ h, env_fault env h Refresh = None.

Local Ltac side := first [done | by intros; unfold few_faults in *; cbn; lia].

Lemma few_faults_keeps {T} (m : State → T * State) :
  keeps dark_mode_error_count m → preserves few_faults m.
Proof.
  apply preserves_keeps. intros st st' Heq. unfold few_faults. by rewrite Heq.
Qed.

Lemma on_fault_few_faults chat e : preserves few_faults (on_fault env chat e).
Proof.
  intros st HP. unfold few_faults in *.
  unfold on_fault, count_dark_mode_error. unfold_monad.
  destruct (PyStr.contains _ _); cbn; [|done].
  case_decide; cbn; [|lia]. rewrite Href. cbn. lia.
Qed.

Lemma delete_chat_few_faults chat : preserves few_faults (_delete_chat env chat).
Proof.
  unfold _delete_chat, delete_chat_body, on_error,
    step_0_prepare, step_3_click_menu_button, step_4_click_delete,
    step_5_find_dialog, step_6_confirm, step_7_verify.
  solve_preserves_with
    ltac:(first
      [ apply on_fault_few_faults
      | apply few_faults_keeps;
        first [ by apply step_1_keeps | by apply step_2_3_keeps
              | by apply find_delete_button_keeps | by apply find_dialog_keeps
              | by apply confirm_attempts_keeps | by apply verify_gone_keeps ] ])
    side.
Qed.

Lemma delete_and_record_few_faults chat :
  preserves few_faults (delete_and_record env chat).
Proof.
  unfold delete_and_record.
  solve_preserves_with
    ltac:(first [ apply delete_chat_few_faults
                | apply few_faults_keeps, save_keeps_count ])
    side.
Qed.

Lemma delete_chats_few_faults chats : preserves few_faults (delete_chats env chats).
Proof.
  induction chats as [|chat rest IH]; cbn [delete_chats].
  - apply preserves_ret.
  - apply preserves_bind; [apply delete_and_record_few_faults|done].
Qed.

Lemma scan_and_delete_few_faults : preserves few_faults (scan_and_delete env).
Proof.
  unfold scan_and_delete.
  apply preserves_bind.
  { apply preserves_invoke, few_faults_keeps, get_chats_keeps_count. }
  intros [|chat rest]; [solve_preserves_with fail side|].
  apply preserves_bind; [apply delete_chats_few_faults|].
  solve_preserves_with fail side.
Qed.

Lemma main_loop_few_faults fuel : preserves few_faults (main_loop env fuel).
Proof.
  induction fuel as [|fuel IH]; intros st Hst; [done|].
  cbn [main_loop].
  pose proof (scan_and_delete_few_faults st Hst) as H1.
  destruct (scan_and_delete env st) as [[[|]|r|e] st1]; cbn in H1 |- *;
    [done|by apply IH|done..].
Qed.

End FewFaults.

(** X12. As long as the page reload does not fail, the fault counter
    stays below five between calls: if it is at most 4 when
    [_delete_chat] is called, it is at most 4 when the call is over, on
    every path through it, and so it is after any number of turns of the
    main loop. *)
Theorem fault_counter_stays_below_five env (st : State) :
  (∀ h, env_fault env h Refresh = None) →
  dark_mode_error_count st ≤ 4 →
  (∀ chat, dark_mode_error_count (_delete_chat env chat st).2 ≤ 4)
  ∧ (∀ fuel, dark_mode_error_count (main_loop env fuel st).2 ≤ 4).
Proof.
  intros Href Hst. split.
  - intros chat. by apply (delete_chat_few_faults env Href chat st).
  - intros fuel. by apply (main_loop_few_faults env Href fuel st).
Qed.

Lemma fault_counter_stays_below_five_witness :
  let env := env_options_intercepted OBSCURED_BY_DARK_HTML in
  let st := delete_repeatedly env chat_abc 4 (fresh_state None) in
  dark_mode_error_count st = 4
  ∧ (∀ chat, dark_mode_error_count (_delete_chat env chat st).2 ≤ 4)
  ∧ (∀ fuel, dark_mode_error_count (main_loop env fuel st).2 ≤ 4).
Proof.
  intros env st. split; [by vm_compute|].
  apply (fault_counter_stays_below_five env st).
  - reflexivity.
  - by vm_compute.
Defined.

(** ** The reloads of one call *)

Lemma reloads_refresh st : reloads (record_event Refresh st) = S (reloads st).
Proof.
  unfold reloads, record_event. cbn [trace]. by rewrite filter_cons_True.
Qed.

Section ReloadsOnce.

Lemma reloads_once_ret {A} (a : A) : reloads_once (mret a).
Proof. by intros st. Qed.

Lemma reloads_once_return_true {A} : reloads_once (return_ (A:=A) true).
Proof. by intros st. Qed.

Lemma reloads_once_return_false {A} : reloads_once (return_ (A:=A) false).
Proof. intros st. cbn. lia. Qed.

Lemma reloads_once_get_state : reloads_once get_state.
Proof. by intros st. Qed.

Lemma reloads_once_keeps {A} (m : M bool A) : keeps reloads m → reloads_once m.
Proof.
  intros Hm st. specialize (Hm st).
  destruct (m st) as [[a|[|]|e] st']; cbn in Hm |- *; lia.
Qed.

Lemma reloads_once_modify (g : State → State) :
  (∀ st, reloads (g st) = reloads st) → reloads_once (modify g).
Proof. intros Hg st. apply Hg. Qed.

Lemma reloads_once_call_for {A} env (answer : Env → list Event → Event → A) ev :
  ev ≠ Refresh → reloads_once (call_for env answer ev).
Proof.
  intros Hev. apply reloads_once_keeps, keeps_call_for.
  intros st. by apply reloads_record_event.
Qed.

Lemma reloads_once_bind {A B} (m : M bool A) (k : A → M bool B) :
  reloads_once m → (∀ a, reloads_once (k a)) → reloads_once (m ≫= k).
Proof.
  intros Hm Hk st. rewrite bind_eq. specialize (Hm st).
  destruct (m st) as [[a|r|e] st1]; cbn in Hm |- *; [|done..].
  specialize (Hk a st1).
  destruct (k a st1) as [[b|[|]|e] st2]; cbn in Hk |- *; lia.
Qed.

Lemma reloads_once_try_except {A} (body : M bool A) (handler : Exn → M bool A) :
  reloads_once body → (∀ e, reloads_once (handler e)) →
  reloads_once (try_except body handler).
Proof.
  intros Hm Hk st. unfold try_except. specialize (Hm st).
  destruct (body st) as [[a|r|e] st1]; cbn in Hm |- *; [done..|].
  specialize (Hk e st1).
  destruct (handler e st1) as [[b|[|]|e'] st2]; cbn in Hk |- *; lia.
Qed.

Lemma reloads_once_try_except_class {A} cls (body : M bool A)
    (handler : Exn → M bool A) :
  reloads_once body → (∀ e, reloads_once (handler e)) →
  reloads_once (try_except_class cls body handler).
Proof.
  intros Hm Hk st. unfold try_except_class. specialize (Hm st).
  destruct (body st) as [[a|r|e] st1]; cbn in Hm |- *; [done..|].
  case_decide; [|done].
  specialize (Hk e st1).
  destruct (handler e st1) as [[b|[|]|e'] st2]; cbn in Hk |- *; lia.
Qed.

Lemma reloads_once_invoke {R} (g : State → Result R * State) :
  keeps reloads g → reloads_once (invoke g).
Proof. intros Hg. by apply reloads_once_keeps, keeps_invoke. Qed.

End ReloadsOnce.

Ltac solve_reloads_once known :=
  repeat first
    [ known
    | apply reloads_once_bind | apply reloads_once_try_except_class
    | apply reloads_once_try_except
    | apply reloads_once_ret
    | apply reloads_once_return_true | apply reloads_once_return_false
    | apply reloads_once_get_state
    | apply reloads_once_modify; solve [done]
    | apply reloads_once_call_for; solve [done]
    | progress intros
    | assumption
    | match goal with
      | |- reloads_once (match ?x with _ => _ end) => destruct x
      end ].

Section OneReload.
Context (env : Env).
Hypothesis Href : ∀ h, env_fault env h Refresh = None.

Local Ltac loops :=
  apply reloads_once_keeps;
  first [ by apply step_1_keeps, reloads_record_event
        | by apply step_2_3_keeps; [apply reloads_record_event|]
        | by apply find_dialog_keeps; [apply reloads_record_event|]
        | by apply confirm_attempts_keeps; [apply reloads_record_event|]
        | by apply verify_gone_keeps; [apply reloads_record_event|] ].

Lemma on_fault_reloads_once chat e : reloads_once (on_fault env chat e).
Proof.
  intros st. unfold on_fault, count_dark_mode_error. unfold_monad.
  destruct (PyStr.contains _ _); cbn; [|unfold reloads; lia].
  case_decide; cbn; [|unfold reloads; lia]. rewrite Href. cbn.
  rewrite decide_False, decide_True by done.
  change (S (reloads st) ≤ reloads st + 1). lia.
Qed.

Lemma reload_and_fail_once {A} msg seconds :
  reloads_once (A:=A)
    (logging_warning msg;; call env Refresh;; sleep seconds;;
     modify (set_dark_mode_error_count 0);; return_ false).
Proof.
  intros st. unfold_monad. cbn. rewrite Href. cbn.
  rewrite decide_False, decide_True by done.
  change (S (reloads st) ≤ reloads st + 1). lia.
Qed.

Lemma find_delete_button_keeps_reloads :
  keeps reloads (_find_delete_button_in_menu env).
Proof. by apply find_delete_button_keeps; [apply reloads_record_event|]. Qed.

Lemma body_reloads_once chat :
  reloads_once (try_except (delete_chat_body env chat) (on_error env chat)).
Proof.
  unfold delete_chat_body, on_error,
    step_0_prepare, step_3_click_menu_button, step_4_click_delete,
    step_5_find_dialog, step_6_confirm, step_7_verify.
  solve_reloads_once
    ltac:(first [ apply on_fault_reloads_once
                | apply reload_and_fail_once
                | apply reloads_once_invoke, find_delete_button_keeps_reloads
                | loops ]).
Qed.

End OneReload.

(** X13. With a page reload that does not fail, one call of
    [_delete_chat] never raises and reloads the page at most once; a
    call that returns [True] has not reloaded the page at all. *)
Theorem one_reload_per_call env (chat : Chat) (st : State) :
  (∀ h, env_fault env h Refresh = None) →
  match _delete_chat env chat st with
  | (Returned true, st') => reloads st' = reloads st
  | (Returned false, st') => reloads st' ≤ reloads st + 1
  | (Raised _, _) => False
  end.
Proof.
  intros Href.
  pose proof (delete_chat_returns env chat st Href) as [b Hb].
  pose proof (body_reloads_once env Href chat st) as H.
  unfold _delete_chat, def in Hb |- *.
  destruct (try_except _ _ st) as [[[]|[|]|e] st1]; cbn in H, Hb |- *;
    try done; lia.
Qed.

Lemma one_reload_per_call_witness :
  let env := env_options_intercepted OBSCURED_BY_DARK_HTML in
  let st := delete_repeatedly env chat_abc 4 (fresh_state None) in
  match _delete_chat env chat_abc st with
  | (Returned true, st') => reloads st' = reloads st
  | (Returned false, st') => reloads st' ≤ reloads st + 1
  | (Raised _, _) => False
  end.
Proof.
  intros env st. apply (one_reload_per_call env chat_abc st). reflexivity.
Defined.

(** ** Where the identifiers of the set come from *)

Lemma from_link_read env deleted c :
  from_link env deleted c → read_from_link env (chat_id c).
Proof.
  intros (h & Hfault & Hlink). unfold chat_of_link, is_chat_href in Hlink.
  destruct (env_attribute env h _) as [href|] eqn:Hattr; [|done].
  destruct (PyStr.truthy href && PyStr.contains "/c/" href) eqn:Hhref; [|done].
  apply andb_true_iff in Hhref as [_ Hpath].
  case_decide; [done|]. injection Hlink as <-.
  by exists h, (chat_element c), href.
Qed.

Lemma get_chats_read env st (chats : list Chat) st' :
  _get_chats env st = (Returned chats, st') →
  ∀ c, c ∈ chats → read_from_link env (chat_id c).
Proof.
  intros Hrun c Hc. apply (from_link_read env (deleted_chat_ids st)).
  revert Hrun. unfold _get_chats. unfold_monad.
  destruct (env_fault _ _ _); cbn.
  { intros [= <- _]. by apply elem_of_nil in Hc. }
  destruct (env_fault _ _ _); cbn.
  { intros [= <- _]. by apply elem_of_nil in Hc. }
  match goal with
  | |- context [get_chats_from env ?els [] ?s] =>
      destruct (get_chats_from_links env els [] s (deleted_chat_ids st))
        as (chats1 & H1 & Hall);
      [done|by intros c0 ?%elem_of_nil|];
      destruct (get_chats_from env els [] s) as [r1 s1]
  end.
  cbn in H1. subst r1. intros [= <- _]. by apply Hall.
Qed.

Lemma delete_chat_true_gone env chat st st' :
  _delete_chat env chat st = (Returned true, st') → seen_gone env (chat_id chat).
Proof.
  rewrite delete_chat_eq.
  destruct (delete_chat_body env chat st) as [[[]|b|e] st1] eqn:Hbody.
  - done.
  - intros [= -> <-]. apply body_true in Hbody as (h & e & _ & He & Hclass).
    by exists h, e.
  - unfold def. pose proof (on_error_never_true env chat e st1) as Hh.
    by destruct (on_error env chat e st1) as [[[]|[|]|e'] st2].
Qed.

Lemma delete_and_record_adds env chat st id :
  id ∈ deleted_chat_ids (delete_and_record env chat st).2 →
  id ∈ deleted_chat_ids st ∨ id = chat_id chat ∧ seen_gone env id.
Proof.
  rewrite delete_and_record_eq.
  pose proof (delete_chat_keeps_store env chat st) as Hk.
  apply (f_equal fst) in Hk.
  destruct (_delete_chat env chat st) as [[[|]|e] st1] eqn:Hcall; cbn in Hk |- *.
  - rewrite save_keeps_deleted. cbn. rewrite Hk.
    intros [->%elem_of_singleton|Hin]%elem_of_union; [|by left].
    right. split; [done|]. by eapply delete_chat_true_gone.
  - rewrite Hk. by left.
  - rewrite Hk. by left.
Qed.

Lemma delete_chats_adds env chats st id :
  id ∈ deleted_chat_ids (delete_chats env chats st).2 →
  id ∈ deleted_chat_ids st
  ∨ (∃ c, c ∈ chats ∧ id = chat_id c) ∧ seen_gone env id.
Proof.
  revert st. induction chats as [|chat rest IH]; intros st; [by left|].
  cbn [delete_chats]. rewrite bind_eq.
  pose proof (delete_and_record_adds env chat st id) as H1.
  destruct (delete_and_record env chat st) as [[[]|r|e] st1]; cbn in H1 |- *.
  - intros [Hin|[(c & Hc & ->) Hgone]]%IH.
    + destruct (H1 Hin) as [?|[-> ?]]; [by left|].
      right. split; [|done]. exists chat. split; [left|done].
    + right. split; [|done]. exists c. split; [by right|done].
  - intros Hin. destruct (H1 Hin) as [?|[-> ?]]; [by left|].
    right. split; [|done]. exists chat. split; [left|done].
  - intros Hin. destruct (H1 Hin) as [?|[-> ?]]; [by left|].
    right. split; [|done]. exists chat. split; [left|done].
Qed.

Lemma scan_and_delete_adds env st id :
  id ∈ deleted_chat_ids (scan_and_delete env st).2 →
  id ∈ deleted_chat_ids st ∨ read_from_link env id ∧ seen_gone env id.
Proof.
  unfold scan_and_delete. rewrite bind_eq. unfold invoke at 1.
  pose proof (get_chats_keeps_deleted env st) as Hk.
  pose proof (get_chats_read env st) as Hread.
  destruct (_get_chats env st) as [[chats|e] st1]; cbn in Hk |- *;
    rewrite <- Hk; [|by left].
  specialize (Hread chats st1 eq_refl).
  destruct chats as [|chat rest]; [by left|].
  rewrite bind_eq.
  pose proof (delete_chats_adds env (chat :: rest) st1 id) as H1.
  assert (id ∈ deleted_chat_ids (delete_chats env (chat :: rest) st1).2 →
          id ∈ deleted_chat_ids st1 ∨ read_from_link env id ∧ seen_gone env id)
    as H2.
  { intros [Hin|[(c & Hc & ->) Hgone]]%H1; [by left|].
    right. split; [by apply Hread|done]. }
  by destruct (delete_chats env (chat :: rest) st1) as [[[]|r|e] st2].
Qed.

(** X14. The main loop marks as deleted only what it has seen deleted:
    an identifier that is in the set after any number of turns was in
    it before, or it was read from the [href] of a chat link (one that
    contains [/c/], the identifier being what follows its last slash)
    and a search for a link to it raised [NoSuchElementException]. *)
Theorem only_verified_ids_are_added env (fuel : nat) (st : State) (id : string) :
  id ∈ deleted_chat_ids (main_loop env fuel st).2 →
  id ∈ deleted_chat_ids st ∨ read_from_link env id ∧ seen_gone env id.
Proof.
  revert st. induction fuel as [|fuel IH]; intros st; [by left|].
  cbn [main_loop].
  pose proof (scan_and_delete_adds env st id) as H1.
  destruct (scan_and_delete env st) as [[[|]|r|e] st1]; cbn in H1 |- *; try done.
  intros [Hin|?]%IH; [by apply H1|by right].
Qed.

Lemma only_verified_ids_are_added_witness :
  "abc" ∈ deleted_chat_ids (fresh_state None)
  ∨ read_from_link env_deleted "abc" ∧ seen_gone env_deleted "abc".
Proof.
  apply (only_verified_ids_are_added env_deleted 2 (fresh_state None) "abc").
  by vm_compute.
Defined.

(** ** Steps 4 and 5: the menu item and the dialog *)

(** X15. A fault of the search for the menu's Delete item is swallowed
    by [_find_delete_button_in_menu], whatever its class and message:
    when step 4 is reached and the wait for the item, or the search
    after it, raises [e], [_delete_chat] logs two warnings and returns
    [False] at once, with no further call; even a fault that carries the
    dark-mode marker is not counted and reloads nothing. *)
Theorem menu_item_fault_not_counted env (chat : Chat) (st st4 st5 : State) (e : Exn) :
  before_step_4 env chat st = (Normal (), st4) →
  (env_fault env (trace st4) menu_item_wait = Some e
   ∧ st5 = record_event menu_item_wait st4)
  ∨ (env_fault env (trace st4) menu_item_wait = None
     ∧ env_fault env (menu_item_wait :: trace st4) menu_item_search = Some e
     ∧ st5 = record_events [menu_item_wait; menu_item_search] st4) →
  _delete_chat env chat st =
    (Returned false,
     record_log WARNING "Delete button not found in menu after waiting"
       (record_log WARNING ("Error finding menu delete button: " +:+ exn_str e) st5)).
Proof.
  intros Hreach Hfault.
  rewrite delete_chat_eq, (body_from_step_4 _ _ _ _ Hreach).
  rewrite bind_eq. unfold step_4_click_delete, _find_delete_button_in_menu.
  unfold_monad. fold menu_item_wait menu_item_search.
  destruct Hfault as [[Hwait ->]|(Hwait & Hsearch & ->)].
  - by rewrite Hwait.
  - rewrite Hwait. cbn. by rewrite Hsearch.
Qed.

Lemma menu_item_fault_not_counted_witness :
  let st4 := (before_step_4 env_no_menu_item chat_abc (fresh_state None)).2 in
  ∃ st', _delete_chat env_no_menu_item chat_abc (fresh_state None) = (Returned false, st')
    ∧ counters st' = counters st4.
Proof.
  intros st4. eexists. split.
  - apply (menu_item_fault_not_counted env_no_menu_item chat_abc (fresh_state None)
             st4 (record_event menu_item_wait st4)
             (intercepted OBSCURED_BY_DARK_HTML)).
    + by vm_compute.
    + left. split; [by vm_compute|reflexivity].
  - by vm_compute.
Defined.

Lemma body_from_step_5 env chat st st1 :
  before_step_5 env chat st = (Normal (), st1) →
  delete_chat_body env chat st =
    (step_5_find_dialog env;; step_6_confirm env;; step_7_verify env chat) st1.
Proof.
  unfold before_step_5. rewrite bind_eq.
  destruct (before_step_4 env chat st) as [[[]|r|e] s] eqn:H4; try done.
  intros H. rewrite (body_from_step_4 _ _ _ _ H4). by rewrite bind_eq, H.
Qed.

Lemma find_dialog_absent env selectors st :
  (∀ selector h, selector ∈ selectors →
     ∃ e, env_fault env h (dialog_wait selector) = Some e
          ∧ exn_class e = TimeoutException) →
  find_dialog env selectors st =
    (Normal false, record_events (dialog_wait <$> selectors) st).
Proof.
  revert st. induction selectors as [|selector rest IH]; intros st Habsent; [done|].
  destruct (Habsent selector (trace st)) as (e & He & Hclass); [left|].
  cbn [find_dialog]. unfold try_except_class. rewrite bind_eq.
  unfold call, call_for. fold (dialog_wait selector). rewrite He.
  case_decide; [|done].
  rewrite IH; [done|]. intros s h Hs. apply Habsent. by right.
Qed.

(** X16. When step 5 is reached and the wait for the dialog runs into
    its time-out under each of the three selectors, [_delete_chat] has
    waited under the three selectors in order, logs that the dialog was
    not found and returns [False], without reloading the page and
    without touching the fault counter. *)
Theorem absent_dialog_returns_false env (chat : Chat) (st st5 : State) :
  before_step_5 env chat st = (Normal (), st5) →
  dialog_absent env →
  _delete_chat env chat st =
    (Returned false,
     record_log WARNING "Could not find confirmation dialog"
       (record_events (dialog_wait <$> dialog_selectors) st5)).
Proof.
  intros Hreach Habsent.
  rewrite delete_chat_eq, (body_from_step_5 _ _ _ _ Hreach).
  rewrite bind_eq. unfold step_5_find_dialog. rewrite bind_eq.
  by rewrite find_dialog_absent.
Qed.

Lemma absent_dialog_returns_false_witness :
  let st5 := (before_step_5 env_no_dialog chat_abc (fresh_state None)).2 in
  ∃ st', _delete_chat env_no_dialog chat_abc (fresh_state None) = (Returned false, st')
    ∧ counters st' = counters st5
    ∧ length (trace st') = length (trace st5) + 3.
Proof.
  intros st5. eexists. split.
  - apply (absent_dialog_returns_false env_no_dialog chat_abc (fresh_state None) st5).
    + by vm_compute.
    + intros selector h _. by exists timed_out.
  - by vm_compute.
Defined.
